(** * pi_cam: the camera web service of [cam.py]

    A shallow embedding of [cam.py] and the properties of its sensor
    profile selection, its capture numbering, its still-capture handler
    and its listing, file and metadata endpoints.

    Python text ([str]) is a list of Unicode code points; Python integers
    are [Z]; a Python [dict] with string keys is a [gmap string _]; a call
    that may raise returns a [result]; a handler is a computation over the
    log of the calls it makes on the camera, the clock and the capture
    directory. The exceptions are instances of [Exception], which is what
    the camera library and the file system raise and what the handlers
    catch.

    The builtins are those of CPython 3.11, whose character database is
    that of Unicode 14.0; paths are POSIX paths; [send_from_directory] is
    that of Flask over werkzeug. *)

From Stdlib Require Import ZArith NArith Lia Ascii String List DecimalPos.
From stdpp Require Import gmap strings list.

Open Scope N_scope.

(** ** Python text *)

Module PyStr.

(** A [str] value: its code points in order. *)
Definition str := list N.

(** An ASCII literal of the source as a [str]. *)
Definition py (s : string) : str :=
  (fun a => N_of_ascii a) <$> list_ascii_of_string s.

Definition cp_underscore : N := 95.
Definition cp_dot : N := 46.
Definition cp_slash : N := 47.
Definition cp_plus : N := 43.
Definition cp_minus : N := 45.
Definition cp_quote : N := 39.

(** [a == b] on text. *)
Fixpoint str_eqb (a b : str) : bool :=
  match a, b with
  | [], [] => true
  | x :: a', y :: b' => (x =? y) && str_eqb a' b'
  | _, _ => false
  end.

(** [s.startswith(p)] *)
Fixpoint startswith (p s : str) : bool :=
  match p, s with
  | [], _ => true
  | _ :: _, [] => false
  | a :: p', b :: s' => (a =? b) && startswith p' s'
  end.

(** [needle in hay] on text: some suffix of [hay] starts with [needle]. *)
Fixpoint py_in (needle hay : str) : bool :=
  startswith needle hay ||
  match hay with
  | [] => false
  | _ :: hay' => py_in needle hay'
  end.

(** [s.split(sep)] for a one-character separator: the pieces between the
    occurrences of [sep]; never the empty list. *)
Fixpoint split (sep : N) (s : str) : list str :=
  match s with
  | [] => [[]]
  | c :: s' =>
      if c =? sep then [] :: split sep s'
      else match split sep s' with
           | p :: ps => (c :: p) :: ps
           | [] => [[c]]
           end
  end.

(** [sep.join(pieces)] for a one-character separator. *)
Fixpoint join (sep : N) (pieces : list str) : str :=
  match pieces with
  | [] => []
  | [p] => p
  | p :: ps => p ++ sep :: join sep ps
  end.

(** The Unicode numeric type of a code point, as [str.isdigit] and [int]
    read it from the character database. [Decimal] is Numeric_Type=Decimal
    (category Nd), [Digit] is Numeric_Type=Digit. *)
Inductive numeric_type :=
| Decimal (d : N)
| Digit (d : N)
| NotDigit.

Definition in_range (lo hi c : N) : bool := (lo <=? c) && (c <=? hi).

(** The character database is that of Unicode 14.0, which CPython 3.11
    carries. The code points of the digit zero of each of its decimal
    systems (category Nd): the nine code points after each are the digits
    one to nine of the system. *)
Definition decimal_zeros : list N :=
  [0x30; 0x660; 0x6F0; 0x7C0; 0x966; 0x9E6; 0xA66; 0xAE6; 0xB66; 0xBE6;
   0xC66; 0xCE6; 0xD66; 0xDE6; 0xE50; 0xED0; 0xF20; 0x1040; 0x1090;
   0x17E0; 0x1810; 0x1946; 0x19D0; 0x1A80; 0x1A90; 0x1B50; 0x1BB0; 0x1C40;
   0x1C50; 0xA620; 0xA8D0; 0xA900; 0xA9D0; 0xA9F0; 0xAA50; 0xABF0; 0xFF10;
   0x104A0; 0x10D30; 0x11066; 0x110F0; 0x11136; 0x111D0; 0x112F0; 0x11450;
   0x114D0; 0x11650; 0x116C0; 0x11730; 0x118E0; 0x11950; 0x11C50; 0x11D50;
   0x11DA0; 0x16A60; 0x16AC0; 0x16B50; 0x1D7CE; 0x1D7D8; 0x1D7E2; 0x1D7EC;
   0x1D7F6; 0x1E140; 0x1E2F0; 0x1E950; 0x1FBF0].

(** The code points of numeric type Digit that are not decimal (the
    superscript, subscript, circled, parenthesized and full-stop digits and
    the like), in runs: the first and the last code point of a run and the
    digit value of the first. *)
Definition digit_runs : list (N * N * N) :=
  [(0xB2, 0xB3, 2); (0xB9, 0xB9, 1); (0x1369, 0x1371, 1); (0x19DA, 0x19DA,
   1); (0x2070, 0x2070, 0); (0x2074, 0x2079, 4); (0x2080, 0x2089, 0);
   (0x2460, 0x2468, 1); (0x2474, 0x247C, 1); (0x2488, 0x2490, 1); (0x24EA,
   0x24EA, 0); (0x24F5, 0x24FD, 1); (0x24FF, 0x24FF, 0); (0x2776, 0x277E,
   1); (0x2780, 0x2788, 1); (0x278A, 0x2792, 1); (0x10A40, 0x10A43, 1);
   (0x10E60, 0x10E68, 1); (0x11052, 0x1105A, 1); (0x1F100, 0x1F100, 0);
   (0x1F101, 0x1F10A, 0)].

Definition numeric (c : N) : numeric_type :=
  match List.find (fun z => in_range z (z + 9) c) decimal_zeros with
  | Some z => Decimal (c - z)
  | None =>
      match List.find (fun r => in_range r.1.1 r.1.2 c) digit_runs with
      | Some r => Digit (r.2 + (c - r.1.1))
      | None => NotDigit
      end
  end.

Definition is_digit (c : N) : bool :=
  match numeric c with
  | Decimal _ | Digit _ => true
  | NotDigit => false
  end.

Definition is_decimal (c : N) : bool :=
  match numeric c with
  | Decimal _ => true
  | _ => false
  end.

Definition decimal_value (c : N) : option Z :=
  match numeric c with
  | Decimal d => Some (Z.of_N d)
  | _ => None
  end.

(** [s.isdigit()]: at least one character, and every character a digit. *)
Definition isdigit (s : str) : bool :=
  match s with
  | [] => false
  | _ => forallb is_digit s
  end.

(** [s.isdecimal()] *)
Definition isdecimal (s : str) : bool :=
  match s with
  | [] => false
  | _ => forallb is_decimal s
  end.

(** White space as [int] skips it around a literal: the ASCII white
    space of C, and above ASCII the characters [str.isspace] accepts. The
    separators U+001C to U+001F, which [str.isspace] accepts too, are not
    skipped. *)
Definition is_space (c : N) : bool :=
  in_range 9 13 c || (c =? 32) || (c =? 0x85) || (c =? 0xA0)
  || (c =? 0x1680) || in_range 0x2000 0x200A c || in_range 0x2028 0x2029 c
  || (c =? 0x202F) || (c =? 0x205F) || (c =? 0x3000).

(** The literal without the white space [int] skips before it, and
    [strip] without that on both sides. *)
Fixpoint lstrip (s : str) : str :=
  match s with
  | c :: s' => if is_space c then lstrip s' else s
  | [] => []
  end.

Definition strip (s : str) : str := rev (lstrip (rev (lstrip s))).

(** [str.lower] on one code point. Only the code points whose lower case
    reaches the ASCII range are given: the capital letters, the dotted
    capital I (two code points) and the Kelvin sign. Every other code point
    lowers to code points outside ASCII and is left as it is. *)
Definition lower_cp (c : N) : str :=
  if in_range 65 90 c then [c + 32]
  else if c =? 0x130 then [0x69; 0x307]
  else if c =? 0x212A then [0x6B]
  else [c].

(** [s.lower()] *)
Definition lower (s : str) : str := flat_map lower_cp s.

(** The code points from U+0080 on that [str.isprintable] rejects (the
    categories Cc, Cf, Cs, Co, Cn, Zl, Zp and Zs of Unicode 14.0), in runs:
    the first and the last code point of each. *)
Definition unprintable_runs : list (N * N) :=
  [(0x80, 0xA0); (0xAD, 0xAD); (0x378, 0x379); (0x380, 0x383); (0x38B,
   0x38B); (0x38D, 0x38D); (0x3A2, 0x3A2); (0x530, 0x530); (0x557, 0x558);
   (0x58B, 0x58C); (0x590, 0x590); (0x5C8, 0x5CF); (0x5EB, 0x5EE); (0x5F5,
   0x605); (0x61C, 0x61C); (0x6DD, 0x6DD); (0x70E, 0x70F); (0x74B, 0x74C);
   (0x7B2, 0x7BF); (0x7FB, 0x7FC); (0x82E, 0x82F); (0x83F, 0x83F); (0x85C,
   0x85D); (0x85F, 0x85F); (0x86B, 0x86F); (0x88F, 0x897); (0x8E2, 0x8E2);
   (0x984, 0x984); (0x98D, 0x98E); (0x991, 0x992); (0x9A9, 0x9A9); (0x9B1,
   0x9B1); (0x9B3, 0x9B5); (0x9BA, 0x9BB); (0x9C5, 0x9C6); (0x9C9, 0x9CA);
   (0x9CF, 0x9D6); (0x9D8, 0x9DB); (0x9DE, 0x9DE); (0x9E4, 0x9E5); (0x9FF,
   0xA00); (0xA04, 0xA04); (0xA0B, 0xA0E); (0xA11, 0xA12); (0xA29, 0xA29);
   (0xA31, 0xA31); (0xA34, 0xA34); (0xA37, 0xA37); (0xA3A, 0xA3B); (0xA3D,
   0xA3D); (0xA43, 0xA46); (0xA49, 0xA4A); (0xA4E, 0xA50); (0xA52, 0xA58);
   (0xA5D, 0xA5D); (0xA5F, 0xA65); (0xA77, 0xA80); (0xA84, 0xA84); (0xA8E,
   0xA8E); (0xA92, 0xA92); (0xAA9, 0xAA9); (0xAB1, 0xAB1); (0xAB4, 0xAB4);
   (0xABA, 0xABB); (0xAC6, 0xAC6); (0xACA, 0xACA); (0xACE, 0xACF); (0xAD1,
   0xADF); (0xAE4, 0xAE5); (0xAF2, 0xAF8); (0xB00, 0xB00); (0xB04, 0xB04);
   (0xB0D, 0xB0E); (0xB11, 0xB12); (0xB29, 0xB29); (0xB31, 0xB31); (0xB34,
   0xB34); (0xB3A, 0xB3B); (0xB45, 0xB46); (0xB49, 0xB4A); (0xB4E, 0xB54);
   (0xB58, 0xB5B); (0xB5E, 0xB5E); (0xB64, 0xB65); (0xB78, 0xB81); (0xB84,
   0xB84); (0xB8B, 0xB8D); (0xB91, 0xB91); (0xB96, 0xB98); (0xB9B, 0xB9B);
   (0xB9D, 0xB9D); (0xBA0, 0xBA2); (0xBA5, 0xBA7); (0xBAB, 0xBAD); (0xBBA,
   0xBBD); (0xBC3, 0xBC5); (0xBC9, 0xBC9); (0xBCE, 0xBCF); (0xBD1, 0xBD6);
   (0xBD8, 0xBE5); (0xBFB, 0xBFF); (0xC0D, 0xC0D); (0xC11, 0xC11); (0xC29,
   0xC29); (0xC3A, 0xC3B); (0xC45, 0xC45); (0xC49, 0xC49); (0xC4E, 0xC54);
   (0xC57, 0xC57); (0xC5B, 0xC5C); (0xC5E, 0xC5F); (0xC64, 0xC65); (0xC70,
   0xC76); (0xC8D, 0xC8D); (0xC91, 0xC91); (0xCA9, 0xCA9); (0xCB4, 0xCB4);
   (0xCBA, 0xCBB); (0xCC5, 0xCC5); (0xCC9, 0xCC9); (0xCCE, 0xCD4); (0xCD7,
   0xCDC); (0xCDF, 0xCDF); (0xCE4, 0xCE5); (0xCF0, 0xCF0); (0xCF3, 0xCFF);
   (0xD0D, 0xD0D); (0xD11, 0xD11); (0xD45, 0xD45); (0xD49, 0xD49); (0xD50,
   0xD53); (0xD64, 0xD65); (0xD80, 0xD80); (0xD84, 0xD84); (0xD97, 0xD99);
   (0xDB2, 0xDB2); (0xDBC, 0xDBC); (0xDBE, 0xDBF); (0xDC7, 0xDC9); (0xDCB,
   0xDCE); (0xDD5, 0xDD5); (0xDD7, 0xDD7); (0xDE0, 0xDE5); (0xDF0, 0xDF1);
   (0xDF5, 0xE00); (0xE3B, 0xE3E); (0xE5C, 0xE80); (0xE83, 0xE83); (0xE85,
   0xE85); (0xE8B, 0xE8B); (0xEA4, 0xEA4); (0xEA6, 0xEA6); (0xEBE, 0xEBF);
   (0xEC5, 0xEC5); (0xEC7, 0xEC7); (0xECE, 0xECF); (0xEDA, 0xEDB); (0xEE0,
   0xEFF); (0xF48, 0xF48); (0xF6D, 0xF70); (0xF98, 0xF98); (0xFBD, 0xFBD);
   (0xFCD, 0xFCD); (0xFDB, 0xFFF); (0x10C6, 0x10C6); (0x10C8, 0x10CC);
   (0x10CE, 0x10CF); (0x1249, 0x1249); (0x124E, 0x124F); (0x1257, 0x1257);
   (0x1259, 0x1259); (0x125E, 0x125F); (0x1289, 0x1289); (0x128E, 0x128F);
   (0x12B1, 0x12B1); (0x12B6, 0x12B7); (0x12BF, 0x12BF); (0x12C1, 0x12C1);
   (0x12C6, 0x12C7); (0x12D7, 0x12D7); (0x1311, 0x1311); (0x1316, 0x1317);
   (0x135B, 0x135C); (0x137D, 0x137F); (0x139A, 0x139F); (0x13F6, 0x13F7);
   (0x13FE, 0x13FF); (0x1680, 0x1680); (0x169D, 0x169F); (0x16F9, 0x16FF);
   (0x1716, 0x171E); (0x1737, 0x173F); (0x1754, 0x175F); (0x176D, 0x176D);
   (0x1771, 0x1771); (0x1774, 0x177F); (0x17DE, 0x17DF); (0x17EA, 0x17EF);
   (0x17FA, 0x17FF); (0x180E, 0x180E); (0x181A, 0x181F); (0x1879, 0x187F);
   (0x18AB, 0x18AF); (0x18F6, 0x18FF); (0x191F, 0x191F); (0x192C, 0x192F);
   (0x193C, 0x193F); (0x1941, 0x1943); (0x196E, 0x196F); (0x1975, 0x197F);
   (0x19AC, 0x19AF); (0x19CA, 0x19CF); (0x19DB, 0x19DD); (0x1A1C, 0x1A1D);
   (0x1A5F, 0x1A5F); (0x1A7D, 0x1A7E); (0x1A8A, 0x1A8F); (0x1A9A, 0x1A9F);
   (0x1AAE, 0x1AAF); (0x1ACF, 0x1AFF); (0x1B4D, 0x1B4F); (0x1B7F, 0x1B7F);
   (0x1BF4, 0x1BFB); (0x1C38, 0x1C3A); (0x1C4A, 0x1C4C); (0x1C89, 0x1C8F);
   (0x1CBB, 0x1CBC); (0x1CC8, 0x1CCF); (0x1CFB, 0x1CFF); (0x1F16, 0x1F17);
   (0x1F1E, 0x1F1F); (0x1F46, 0x1F47); (0x1F4E, 0x1F4F); (0x1F58, 0x1F58);
   (0x1F5A, 0x1F5A); (0x1F5C, 0x1F5C); (0x1F5E, 0x1F5E); (0x1F7E, 0x1F7F);
   (0x1FB5, 0x1FB5); (0x1FC5, 0x1FC5); (0x1FD4, 0x1FD5); (0x1FDC, 0x1FDC);
   (0x1FF0, 0x1FF1); (0x1FF5, 0x1FF5); (0x1FFF, 0x200F); (0x2028, 0x202F);
   (0x205F, 0x206F); (0x2072, 0x2073); (0x208F, 0x208F); (0x209D, 0x209F);
   (0x20C1, 0x20CF); (0x20F1, 0x20FF); (0x218C, 0x218F); (0x2427, 0x243F);
   (0x244B, 0x245F); (0x2B74, 0x2B75); (0x2B96, 0x2B96); (0x2CF4, 0x2CF8);
   (0x2D26, 0x2D26); (0x2D28, 0x2D2C); (0x2D2E, 0x2D2F); (0x2D68, 0x2D6E);
   (0x2D71, 0x2D7E); (0x2D97, 0x2D9F); (0x2DA7, 0x2DA7); (0x2DAF, 0x2DAF);
   (0x2DB7, 0x2DB7); (0x2DBF, 0x2DBF); (0x2DC7, 0x2DC7); (0x2DCF, 0x2DCF);
   (0x2DD7, 0x2DD7); (0x2DDF, 0x2DDF); (0x2E5E, 0x2E7F); (0x2E9A, 0x2E9A);
   (0x2EF4, 0x2EFF); (0x2FD6, 0x2FEF); (0x2FFC, 0x3000); (0x3040, 0x3040);
   (0x3097, 0x3098); (0x3100, 0x3104); (0x3130, 0x3130); (0x318F, 0x318F);
   (0x31E4, 0x31EF); (0x321F, 0x321F); (0xA48D, 0xA48F); (0xA4C7, 0xA4CF);
   (0xA62C, 0xA63F); (0xA6F8, 0xA6FF); (0xA7CB, 0xA7CF); (0xA7D2, 0xA7D2);
   (0xA7D4, 0xA7D4); (0xA7DA, 0xA7F1); (0xA82D, 0xA82F); (0xA83A, 0xA83F);
   (0xA878, 0xA87F); (0xA8C6, 0xA8CD); (0xA8DA, 0xA8DF); (0xA954, 0xA95E);
   (0xA97D, 0xA97F); (0xA9CE, 0xA9CE); (0xA9DA, 0xA9DD); (0xA9FF, 0xA9FF);
   (0xAA37, 0xAA3F); (0xAA4E, 0xAA4F); (0xAA5A, 0xAA5B); (0xAAC3, 0xAADA);
   (0xAAF7, 0xAB00); (0xAB07, 0xAB08); (0xAB0F, 0xAB10); (0xAB17, 0xAB1F);
   (0xAB27, 0xAB27); (0xAB2F, 0xAB2F); (0xAB6C, 0xAB6F); (0xABEE, 0xABEF);
   (0xABFA, 0xABFF); (0xD7A4, 0xD7AF); (0xD7C7, 0xD7CA); (0xD7FC, 0xF8FF);
   (0xFA6E, 0xFA6F); (0xFADA, 0xFAFF); (0xFB07, 0xFB12); (0xFB18, 0xFB1C);
   (0xFB37, 0xFB37); (0xFB3D, 0xFB3D); (0xFB3F, 0xFB3F); (0xFB42, 0xFB42);
   (0xFB45, 0xFB45); (0xFBC3, 0xFBD2); (0xFD90, 0xFD91); (0xFDC8, 0xFDCE);
   (0xFDD0, 0xFDEF); (0xFE1A, 0xFE1F); (0xFE53, 0xFE53); (0xFE67, 0xFE67);
   (0xFE6C, 0xFE6F); (0xFE75, 0xFE75); (0xFEFD, 0xFF00); (0xFFBF, 0xFFC1);
   (0xFFC8, 0xFFC9); (0xFFD0, 0xFFD1); (0xFFD8, 0xFFD9); (0xFFDD, 0xFFDF);
   (0xFFE7, 0xFFE7); (0xFFEF, 0xFFFB); (0xFFFE, 0xFFFF); (0x1000C,
   0x1000C); (0x10027, 0x10027); (0x1003B, 0x1003B); (0x1003E, 0x1003E);
   (0x1004E, 0x1004F); (0x1005E, 0x1007F); (0x100FB, 0x100FF); (0x10103,
   0x10106); (0x10134, 0x10136); (0x1018F, 0x1018F); (0x1019D, 0x1019F);
   (0x101A1, 0x101CF); (0x101FE, 0x1027F); (0x1029D, 0x1029F); (0x102D1,
   0x102DF); (0x102FC, 0x102FF); (0x10324, 0x1032C); (0x1034B, 0x1034F);
   (0x1037B, 0x1037F); (0x1039E, 0x1039E); (0x103C4, 0x103C7); (0x103D6,
   0x103FF); (0x1049E, 0x1049F); (0x104AA, 0x104AF); (0x104D4, 0x104D7);
   (0x104FC, 0x104FF); (0x10528, 0x1052F); (0x10564, 0x1056E); (0x1057B,
   0x1057B); (0x1058B, 0x1058B); (0x10593, 0x10593); (0x10596, 0x10596);
   (0x105A2, 0x105A2); (0x105B2, 0x105B2); (0x105BA, 0x105BA); (0x105BD,
   0x105FF); (0x10737, 0x1073F); (0x10756, 0x1075F); (0x10768, 0x1077F);
   (0x10786, 0x10786); (0x107B1, 0x107B1); (0x107BB, 0x107FF); (0x10806,
   0x10807); (0x10809, 0x10809); (0x10836, 0x10836); (0x10839, 0x1083B);
   (0x1083D, 0x1083E); (0x10856, 0x10856); (0x1089F, 0x108A6); (0x108B0,
   0x108DF); (0x108F3, 0x108F3); (0x108F6, 0x108FA); (0x1091C, 0x1091E);
   (0x1093A, 0x1093E); (0x10940, 0x1097F); (0x109B8, 0x109BB); (0x109D0,
   0x109D1); (0x10A04, 0x10A04); (0x10A07, 0x10A0B); (0x10A14, 0x10A14);
   (0x10A18, 0x10A18); (0x10A36, 0x10A37); (0x10A3B, 0x10A3E); (0x10A49,
   0x10A4F); (0x10A59, 0x10A5F); (0x10AA0, 0x10ABF); (0x10AE7, 0x10AEA);
   (0x10AF7, 0x10AFF); (0x10B36, 0x10B38); (0x10B56, 0x10B57); (0x10B73,
   0x10B77); (0x10B92, 0x10B98); (0x10B9D, 0x10BA8); (0x10BB0, 0x10BFF);
   (0x10C49, 0x10C7F); (0x10CB3, 0x10CBF); (0x10CF3, 0x10CF9); (0x10D28,
   0x10D2F); (0x10D3A, 0x10E5F); (0x10E7F, 0x10E7F); (0x10EAA, 0x10EAA);
   (0x10EAE, 0x10EAF); (0x10EB2, 0x10EFF); (0x10F28, 0x10F2F); (0x10F5A,
   0x10F6F); (0x10F8A, 0x10FAF); (0x10FCC, 0x10FDF); (0x10FF7, 0x10FFF);
   (0x1104E, 0x11051); (0x11076, 0x1107E); (0x110BD, 0x110BD); (0x110C3,
   0x110CF); (0x110E9, 0x110EF); (0x110FA, 0x110FF); (0x11135, 0x11135);
   (0x11148, 0x1114F); (0x11177, 0x1117F); (0x111E0, 0x111E0); (0x111F5,
   0x111FF); (0x11212, 0x11212); (0x1123F, 0x1127F); (0x11287, 0x11287);
   (0x11289, 0x11289); (0x1128E, 0x1128E); (0x1129E, 0x1129E); (0x112AA,
   0x112AF); (0x112EB, 0x112EF); (0x112FA, 0x112FF); (0x11304, 0x11304);
   (0x1130D, 0x1130E); (0x11311, 0x11312); (0x11329, 0x11329); (0x11331,
   0x11331); (0x11334, 0x11334); (0x1133A, 0x1133A); (0x11345, 0x11346);
   (0x11349, 0x1134A); (0x1134E, 0x1134F); (0x11351, 0x11356); (0x11358,
   0x1135C); (0x11364, 0x11365); (0x1136D, 0x1136F); (0x11375, 0x113FF);
   (0x1145C, 0x1145C); (0x11462, 0x1147F); (0x114C8, 0x114CF); (0x114DA,
   0x1157F); (0x115B6, 0x115B7); (0x115DE, 0x115FF); (0x11645, 0x1164F);
   (0x1165A, 0x1165F); (0x1166D, 0x1167F); (0x116BA, 0x116BF); (0x116CA,
   0x116FF); (0x1171B, 0x1171C); (0x1172C, 0x1172F); (0x11747, 0x117FF);
   (0x1183C, 0x1189F); (0x118F3, 0x118FE); (0x11907, 0x11908); (0x1190A,
   0x1190B); (0x11914, 0x11914); (0x11917, 0x11917); (0x11936, 0x11936);
   (0x11939, 0x1193A); (0x11947, 0x1194F); (0x1195A, 0x1199F); (0x119A8,
   0x119A9); (0x119D8, 0x119D9); (0x119E5, 0x119FF); (0x11A48, 0x11A4F);
   (0x11AA3, 0x11AAF); (0x11AF9, 0x11BFF); (0x11C09, 0x11C09); (0x11C37,
   0x11C37); (0x11C46, 0x11C4F); (0x11C6D, 0x11C6F); (0x11C90, 0x11C91);
   (0x11CA8, 0x11CA8); (0x11CB7, 0x11CFF); (0x11D07, 0x11D07); (0x11D0A,
   0x11D0A); (0x11D37, 0x11D39); (0x11D3B, 0x11D3B); (0x11D3E, 0x11D3E);
   (0x11D48, 0x11D4F); (0x11D5A, 0x11D5F); (0x11D66, 0x11D66); (0x11D69,
   0x11D69); (0x11D8F, 0x11D8F); (0x11D92, 0x11D92); (0x11D99, 0x11D9F);
   (0x11DAA, 0x11EDF); (0x11EF9, 0x11FAF); (0x11FB1, 0x11FBF); (0x11FF2,
   0x11FFE); (0x1239A, 0x123FF); (0x1246F, 0x1246F); (0x12475, 0x1247F);
   (0x12544, 0x12F8F); (0x12FF3, 0x12FFF); (0x1342F, 0x143FF); (0x14647,
   0x167FF); (0x16A39, 0x16A3F); (0x16A5F, 0x16A5F); (0x16A6A, 0x16A6D);
   (0x16ABF, 0x16ABF); (0x16ACA, 0x16ACF); (0x16AEE, 0x16AEF); (0x16AF6,
   0x16AFF); (0x16B46, 0x16B4F); (0x16B5A, 0x16B5A); (0x16B62, 0x16B62);
   (0x16B78, 0x16B7C); (0x16B90, 0x16E3F); (0x16E9B, 0x16EFF); (0x16F4B,
   0x16F4E); (0x16F88, 0x16F8E); (0x16FA0, 0x16FDF); (0x16FE5, 0x16FEF);
   (0x16FF2, 0x16FFF); (0x187F8, 0x187FF); (0x18CD6, 0x18CFF); (0x18D09,
   0x1AFEF); (0x1AFF4, 0x1AFF4); (0x1AFFC, 0x1AFFC); (0x1AFFF, 0x1AFFF);
   (0x1B123, 0x1B14F); (0x1B153, 0x1B163); (0x1B168, 0x1B16F); (0x1B2FC,
   0x1BBFF); (0x1BC6B, 0x1BC6F); (0x1BC7D, 0x1BC7F); (0x1BC89, 0x1BC8F);
   (0x1BC9A, 0x1BC9B); (0x1BCA0, 0x1CEFF); (0x1CF2E, 0x1CF2F); (0x1CF47,
   0x1CF4F); (0x1CFC4, 0x1CFFF); (0x1D0F6, 0x1D0FF); (0x1D127, 0x1D128);
   (0x1D173, 0x1D17A); (0x1D1EB, 0x1D1FF); (0x1D246, 0x1D2DF); (0x1D2F4,
   0x1D2FF); (0x1D357, 0x1D35F); (0x1D379, 0x1D3FF); (0x1D455, 0x1D455);
   (0x1D49D, 0x1D49D); (0x1D4A0, 0x1D4A1); (0x1D4A3, 0x1D4A4); (0x1D4A7,
   0x1D4A8); (0x1D4AD, 0x1D4AD); (0x1D4BA, 0x1D4BA); (0x1D4BC, 0x1D4BC);
   (0x1D4C4, 0x1D4C4); (0x1D506, 0x1D506); (0x1D50B, 0x1D50C); (0x1D515,
   0x1D515); (0x1D51D, 0x1D51D); (0x1D53A, 0x1D53A); (0x1D53F, 0x1D53F);
   (0x1D545, 0x1D545); (0x1D547, 0x1D549); (0x1D551, 0x1D551); (0x1D6A6,
   0x1D6A7); (0x1D7CC, 0x1D7CD); (0x1DA8C, 0x1DA9A); (0x1DAA0, 0x1DAA0);
   (0x1DAB0, 0x1DEFF); (0x1DF1F, 0x1DFFF); (0x1E007, 0x1E007); (0x1E019,
   0x1E01A); (0x1E022, 0x1E022); (0x1E025, 0x1E025); (0x1E02B, 0x1E0FF);
   (0x1E12D, 0x1E12F); (0x1E13E, 0x1E13F); (0x1E14A, 0x1E14D); (0x1E150,
   0x1E28F); (0x1E2AF, 0x1E2BF); (0x1E2FA, 0x1E2FE); (0x1E300, 0x1E7DF);
   (0x1E7E7, 0x1E7E7); (0x1E7EC, 0x1E7EC); (0x1E7EF, 0x1E7EF); (0x1E7FF,
   0x1E7FF); (0x1E8C5, 0x1E8C6); (0x1E8D7, 0x1E8FF); (0x1E94C, 0x1E94F);
   (0x1E95A, 0x1E95D); (0x1E960, 0x1EC70); (0x1ECB5, 0x1ED00); (0x1ED3E,
   0x1EDFF); (0x1EE04, 0x1EE04); (0x1EE20, 0x1EE20); (0x1EE23, 0x1EE23);
   (0x1EE25, 0x1EE26); (0x1EE28, 0x1EE28); (0x1EE33, 0x1EE33); (0x1EE38,
   0x1EE38); (0x1EE3A, 0x1EE3A); (0x1EE3C, 0x1EE41); (0x1EE43, 0x1EE46);
   (0x1EE48, 0x1EE48); (0x1EE4A, 0x1EE4A); (0x1EE4C, 0x1EE4C); (0x1EE50,
   0x1EE50); (0x1EE53, 0x1EE53); (0x1EE55, 0x1EE56); (0x1EE58, 0x1EE58);
   (0x1EE5A, 0x1EE5A); (0x1EE5C, 0x1EE5C); (0x1EE5E, 0x1EE5E); (0x1EE60,
   0x1EE60); (0x1EE63, 0x1EE63); (0x1EE65, 0x1EE66); (0x1EE6B, 0x1EE6B);
   (0x1EE73, 0x1EE73); (0x1EE78, 0x1EE78); (0x1EE7D, 0x1EE7D); (0x1EE7F,
   0x1EE7F); (0x1EE8A, 0x1EE8A); (0x1EE9C, 0x1EEA0); (0x1EEA4, 0x1EEA4);
   (0x1EEAA, 0x1EEAA); (0x1EEBC, 0x1EEEF); (0x1EEF2, 0x1EFFF); (0x1F02C,
   0x1F02F); (0x1F094, 0x1F09F); (0x1F0AF, 0x1F0B0); (0x1F0C0, 0x1F0C0);
   (0x1F0D0, 0x1F0D0); (0x1F0F6, 0x1F0FF); (0x1F1AE, 0x1F1E5); (0x1F203,
   0x1F20F); (0x1F23C, 0x1F23F); (0x1F249, 0x1F24F); (0x1F252, 0x1F25F);
   (0x1F266, 0x1F2FF); (0x1F6D8, 0x1F6DC); (0x1F6ED, 0x1F6EF); (0x1F6FD,
   0x1F6FF); (0x1F774, 0x1F77F); (0x1F7D9, 0x1F7DF); (0x1F7EC, 0x1F7EF);
   (0x1F7F1, 0x1F7FF); (0x1F80C, 0x1F80F); (0x1F848, 0x1F84F); (0x1F85A,
   0x1F85F); (0x1F888, 0x1F88F); (0x1F8AE, 0x1F8AF); (0x1F8B2, 0x1F8FF);
   (0x1FA54, 0x1FA5F); (0x1FA6E, 0x1FA6F); (0x1FA75, 0x1FA77); (0x1FA7D,
   0x1FA7F); (0x1FA87, 0x1FA8F); (0x1FAAD, 0x1FAAF); (0x1FABB, 0x1FABF);
   (0x1FAC6, 0x1FACF); (0x1FADA, 0x1FADF); (0x1FAE8, 0x1FAEF); (0x1FAF7,
   0x1FAFF); (0x1FB93, 0x1FB93); (0x1FBCB, 0x1FBEF); (0x1FBFA, 0x1FFFF);
   (0x2A6E0, 0x2A6FF); (0x2B739, 0x2B73F); (0x2B81E, 0x2B81F); (0x2CEA2,
   0x2CEAF); (0x2EBE1, 0x2F7FF); (0x2FA1E, 0x2FFFF); (0x3134B, 0xE00FF);
   (0xE01F0, 0x10FFFF)].

Definition isprintable_cp (c : N) : bool :=
  negb (existsb (fun r => in_range r.1 r.2 c) unprintable_runs).

Definition hex_digit (n : N) : N := if n <? 10 then 48 + n else 87 + n.

(** [c] in [width] hexadecimal digits, small letters. *)
Fixpoint hex_digits (width : nat) (c : N) : str :=
  match width with
  | O => []
  | S w => hex_digits w (c / 16) ++ [hex_digit (c mod 16)]
  end.

Definition cp_backslash : N := 92.
Definition cp_double_quote : N := 34.

(** One character of [repr(s)], between the quotes [quote]. *)
Definition repr_cp (quote c : N) : str :=
  if (c =? quote) || (c =? cp_backslash) then [cp_backslash; c]
  else if c =? 9 then [cp_backslash; 116]
  else if c =? 10 then [cp_backslash; 110]
  else if c =? 13 then [cp_backslash; 114]
  else if (c <? 32) || (c =? 0x7F) then
    cp_backslash :: 120 :: hex_digits 2 c
  else if c <? 0x7F then [c]
  else if isprintable_cp c then [c]
  else if c <=? 0xFF then cp_backslash :: 120 :: hex_digits 2 c
  else if c <=? 0xFFFF then cp_backslash :: 117 :: hex_digits 4 c
  else cp_backslash :: 85 :: hex_digits 8 c.

(** [repr(s)]: between single quotes, or between double quotes when the
    text holds a single quote and no double quote; the quote, the
    backslash and what is not printable are escaped. *)
Definition repr (s : str) : str :=
  let quote :=
    if existsb (fun c => c =? cp_quote) s
       && negb (existsb (fun c => c =? cp_double_quote) s)
    then cp_double_quote else cp_quote in
  quote :: flat_map (repr_cp quote) s ++ [quote].

End PyStr.
Export PyStr.

(** ** Exceptions and results *)

Inductive exn_class :=
| ValueError
| IndexError
| OSError
| RuntimeError.

(** An instance of [Exception]: its class and [str(e)]. *)
Record exn := Exn { exn_cls : exn_class; exn_str : str }.

Inductive result (A : Type) :=
| Ok (a : A)
| Raise (e : exn).
Arguments Ok {A} a.
Arguments Raise {A} e.

Definition rbind {A B} (r : result A) (k : A -> result B) : result B :=
  match r with
  | Ok a => k a
  | Raise e => Raise e
  end.

Notation "'let*' x ':=' r 'in' k" := (rbind r (fun x => k))
  (at level 10, x name, r at level 100, k at level 200).

(** The list comprehension [[elt(x) for x in l if cond(x)]]: for each
    element in order the condition is evaluated, then the element
    expression when it holds; the first exception ends it. *)
Fixpoint comprehension {A B} (cond : A -> result bool) (elt : A -> result B)
    (l : list A) : result (list B) :=
  match l with
  | [] => Ok []
  | a :: l' =>
      let* c := cond a in
      if c then
        let* b := elt a in
        let* bs := comprehension cond elt l' in
        Ok (b :: bs)
      else comprehension cond elt l'
  end.

(** [l[i]] *)
Definition index {A} (l : list A) (i : nat) : result A :=
  match l !! i with
  | Some a => Ok a
  | None => Raise (Exn IndexError (py "list index out of range"))
  end.

(** ** [int(s)], [str(n)] and [max] *)

(** The [ValueError] of [int]: its text gives the first 200 characters of
    the [repr] of the literal. *)
Definition invalid_literal (s : str) : exn :=
  Exn ValueError
    (py "invalid literal for int() with base 10: " ++ take 200 (repr s)).

(** The digits of an integer literal: decimal digits, with single
    underscores allowed between two digits. [prev] tells whether the
    previous character was a digit. *)
Fixpoint parse_digits (acc : Z) (prev : bool) (s : str) : option Z :=
  match s with
  | [] => if prev then Some acc else None
  | c :: s' =>
      match decimal_value c with
      | Some d => parse_digits (10 * acc + d)%Z true s'
      | None =>
          if (c =? cp_underscore) && prev then parse_digits acc false s'
          else None
      end
  end.

(** [int(s)]: surrounding white space is skipped, one sign may precede the
    digits; anything else raises [ValueError]. (The limit of 4300 digits on
    a literal is beyond the length of a file name.) *)
Definition py_int (s : str) : result Z :=
  let t := strip s in
  let '(neg, digits) :=
    match t with
    | c :: t' =>
        if c =? cp_minus then (true, t')
        else if c =? cp_plus then (false, t')
        else (false, t)
    | [] => (false, t)
    end in
  match parse_digits 0 false digits with
  | Some v => Ok (if neg then - v else v)%Z
  | None => Raise (invalid_literal s)
  end.

Fixpoint uint_digits (u : Decimal.uint) : str :=
  match u with
  | Decimal.Nil => []
  | Decimal.D0 u' => 48 :: uint_digits u'
  | Decimal.D1 u' => 49 :: uint_digits u'
  | Decimal.D2 u' => 50 :: uint_digits u'
  | Decimal.D3 u' => 51 :: uint_digits u'
  | Decimal.D4 u' => 52 :: uint_digits u'
  | Decimal.D5 u' => 53 :: uint_digits u'
  | Decimal.D6 u' => 54 :: uint_digits u'
  | Decimal.D7 u' => 55 :: uint_digits u'
  | Decimal.D8 u' => 56 :: uint_digits u'
  | Decimal.D9 u' => 57 :: uint_digits u'
  end.

(** [str(n)], as the f-string [f'capture_{n}.jpg'] renders [n]. *)
Definition str_of_int (n : Z) : str :=
  match Z.to_int n with
  | Decimal.Pos u => uint_digits u
  | Decimal.Neg u => cp_minus :: uint_digits u
  end.

(** [max(l, default=d)] *)
Definition max_default (d : Z) (l : list Z) : Z :=
  match l with
  | [] => d
  | x :: l' => fold_left Z.max l' x
  end.

Fixpoint max_key_from {A} (key : A -> result Z) (best : A) (kbest : Z)
    (l : list A) : result A :=
  match l with
  | [] => Ok best
  | x :: l' =>
      let* k := key x in
      if (kbest <? k)%Z then max_key_from key x k l'
      else max_key_from key best kbest l'
  end.

(** [max(l, key=key)]: the first element whose key is the greatest; the
    keys are computed in order, and the first exception ends it. *)
Definition max_key {A} (key : A -> result Z) (l : list A) : result A :=
  match l with
  | [] => Raise (Exn ValueError (py "max() arg is an empty sequence"))
  | x :: l' => let* k := key x in max_key_from key x k l'
  end.

(** ** Capture numbering *)

Definition CAPTURE_FOLDER : str := py "captures".

(** [f.split('_')[1].split('.')[0]] *)
Definition number_part (f : str) : result str :=
  let* p := index (split cp_underscore f) 1 in
  index (split cp_dot p) 0.

(** The condition and the element expression of the comprehension of
    line 79. *)
Definition cond_digit (f : str) : result bool :=
  let* p := number_part f in Ok (isdigit p).

Definition elt_int (f : str) : result Z :=
  let* p := number_part f in py_int p.

(** [get_next_capture_number], on the names [os.listdir] returned. *)
Definition get_next_capture_number (listing : list str) : result Z :=
  let existing_files := List.filter (startswith (py "capture_")) listing in
  let* numbers := comprehension cond_digit elt_int existing_files in
  Ok (max_default 0 numbers + 1)%Z.

(** ** Capture configurations and the module's start-up *)

Inductive control_value :=
| AfModeEnum_Continuous
| AfModeEnum_Auto
| AfRangeEnum_Normal
| AfMeteringEnum_Windows
| Rectangles (ws : list (Z * Z * Z * Z))
| Limits (lo hi : Z).

Inductive use_case := Video | Still.

(** A camera configuration as the two [create_*_configuration] calls are
    given it: the size of the main stream when the code names one ([None]
    leaves the library's default for the device) and the controls. *)
Record configuration := Configuration {
  use : use_case;
  size : option (Z * Z);
  controls : gmap string control_value
}.

Definition create_video_configuration (main_size : option (Z * Z))
    (ctrls : gmap string control_value) : configuration :=
  Configuration Video main_size ctrls.

Definition create_still_configuration (main_size : option (Z * Z))
    (ctrls : gmap string control_value) : configuration :=
  Configuration Still main_size ctrls.

(** The values the module-level name [camera_info] is bound to: what
    [global_camera_info()] returned, with its [str()], and a function
    object, with its name and the address [str()] prints. *)
Inductive pyval :=
| VCameraInfo (text : str)
| VFunction (name : str) (address : str).

(** [str(v)] *)
Definition py_str (v : pyval) : str :=
  match v with
  | VCameraInfo text => text
  | VFunction name address =>
      py "<function " ++ name ++ py " at 0x" ++ address ++ py ">"
  end.

(** The module's global names that the handlers read. *)
Record globals := Globals {
  is_v3 : bool;
  video_config : configuration;
  still_config : configuration;
  camera_info : pyval
}.

(** [int(w * 0.1)]: for the widths of the source the floating-point
    product is the exact tenth. *)
Definition int_tenth (w : Z) : Z := (w / 10)%Z.

(** [int(a / 2)] *)
Definition int_half (a : Z) : Z := (a ÷ 2)%Z.

(** The module's top level, lines 16 to 71 and the [def]s after them:
    [identification] is what [picam2.global_camera_info()] returns and
    [handler_address] where the interpreter puts the function object of
    [def camera_info]. *)
Definition startup (identification : pyval) (handler_address : str)
    : globals :=
  let camera_info := identification in
  let is_v3 := py_in (py "imx708") (lower (py_str camera_info)) in
  let '(video_config, still_config) :=
    if is_v3 then
      let '(preview_config, still_config) :=
        if is_v3 then
          let width := 1920%Z in
          let height := 1080%Z in
          let window_width := int_tenth width in
          let window_height := int_tenth height in
          let window_x := int_half (width - window_width) in
          let window_y := int_half (height - window_height) in
          let preview_config :=
            create_video_configuration (Some (width, height))
              {[ "AfMode" := AfModeEnum_Continuous;
                 "AfRange" := AfRangeEnum_Normal;
                 "AfMetering" := AfMeteringEnum_Windows;
                 "AfWindows" :=
                   Rectangles
                     [(window_x, window_y, window_width, window_height)];
                 "FrameDurationLimits" := Limits 100000 100000 ]} in
          let still_config :=
            create_still_configuration (Some (4608, 2592)%Z)
              {[ "AfMode" := AfModeEnum_Auto ]} in
          (preview_config, still_config)
        else
          let preview_config :=
            create_video_configuration (Some (1640, 1232)%Z) ∅ in
          let still_config :=
            create_still_configuration (Some (4056, 3040)%Z) ∅ in
          (preview_config, still_config) in
      let video_config := preview_config in
      let still_config :=
        create_still_configuration (Some (4608, 2592)%Z)
          {[ "AfMode" := AfModeEnum_Auto ]} in
      let video_config := preview_config in
      (video_config, still_config)
    else
      let video_config :=
        create_video_configuration (Some (640, 480)%Z) ∅ in
      let still_config := create_still_configuration None ∅ in
      (video_config, still_config) in
  (* [def camera_info():] binds the same global name again *)
  let camera_info := VFunction (py "camera_info") handler_address in
  Globals is_v3 video_config still_config camera_info.

(** ** The device, the file system and the handlers' effects *)

(** The calls a handler makes on the camera, the clock and the capture
    directory. *)
Inductive call :=
| Listdir (dir : str)
| Stop
| Configure (c : configuration)
| Start
| Sleep (ms : N)
| CaptureFile (path : str).

(** A call that was made, and the exception it raised if it did. *)
Record event := Event { ev_call : call; ev_raised : option exn }.

Definition succeeded (c : call) : event := Event c None.

(** What a handler runs against: which calls raise, given the calls made
    so far, and the names in the capture directory. *)
Record environment := Environment {
  fault : list event -> call -> option exn;
  files : list str
}.

(** A handler's computation: it extends the log of calls and returns or
    raises. *)
Definition M (A : Type) : Type := list event -> result A * list event.

Definition ret {A} (a : A) : M A := fun log => (Ok a, log).

Definition bind {A B} (m : M A) (k : A -> M B) : M B :=
  fun log =>
    match m log with
    | (Ok a, log') => k a log'
    | (Raise e, log') => (Raise e, log')
    end.

Definition lift {A} (r : result A) : M A := fun log => (r, log).

(** [try: m except Exception as e: h(e)] *)
Definition try_except {A} (m : M A) (h : exn -> M A) : M A :=
  fun log =>
    match m log with
    | (Ok a, log') => (Ok a, log')
    | (Raise e, log') => h e log'
    end.

Notation "'do*' x ':=' m 'in' k" := (bind m (fun x => k))
  (at level 10, x name, m at level 100, k at level 200).
Notation "m '>>' k" := (bind m (fun _ => k))
  (at level 80, right associativity).

Inductive jval :=
| JBool (b : bool)
| JStr (s : str).

Inductive content :=
| JSON (o : gmap string jval)
| FileAt (path : str)
| ErrorPage.

Record response := Response { status : N; body : content }.

(** [jsonify(o)] and [jsonify(o), code] *)
Definition jsonify (o : gmap string jval) : response := Response 200 (JSON o).
Definition with_status (r : response) (code : N) : response :=
  Response code (body r).

(** [os.path.join(a, b)] on POSIX paths. *)
Definition path_join (a b : str) : str :=
  if startswith [cp_slash] b then b
  else match last a with
       | None => b
       | Some c => if c =? cp_slash then a ++ b else a ++ cp_slash :: b
       end.

Section Handlers.

Variable env : environment.

(** One call on the device, the clock or the directory. *)
Definition perform (c : call) : M unit :=
  fun log =>
    let raised := fault env log c in
    (match raised with
     | None => Ok tt
     | Some e => Raise e
     end, log ++ [Event c raised]).

(** [os.listdir(dir)] *)
Definition os_listdir (dir : str) : M (list str) :=
  perform (Listdir dir) >> ret (files env).

(** [get_next_capture_number()], with its directory scan. *)
Definition scan_next_capture_number : M Z :=
  do* listing := os_listdir CAPTURE_FOLDER in
  lift (get_next_capture_number listing).

Section WithGlobals.

Variable g : globals.

(** The body of the [try] of [capture], lines 102 to 122. *)
Definition capture_body : M response :=
  do* n := scan_next_capture_number in
  let filename := py "capture_" ++ str_of_int n ++ py ".jpg" in
  let filepath := path_join CAPTURE_FOLDER filename in
  perform Stop >>
  perform (Configure (still_config g)) >>
  perform Start >>
  (if is_v3 g then perform (Sleep 500) else ret tt) >>
  perform (CaptureFile filepath) >>
  perform Stop >>
  perform (Configure (video_config g)) >>
  perform Start >>
  ret (jsonify {[ "success" := JBool true; "filename" := JStr filename ]}).

(** The inner [try] of the handler of [capture], lines 124 to 130. *)
Definition capture_recover : M unit :=
  try_except
    (perform Stop >>
     perform (Configure (video_config g)) >>
     perform Start)
    (fun _ => ret tt).

(** The [/capture] handler. *)
Definition capture : M response :=
  try_except capture_body
    (fun e =>
       capture_recover >>
       ret (with_status
              (jsonify {[ "success" := JBool false;
                          "error" := JStr (exn_str e) ]}) 500)).

(** The [/camera_info] handler. *)
Definition camera_info_handler : response :=
  jsonify {[ "is_v3" := JBool (is_v3 g);
             "info" := JStr (py_str (camera_info g));
             "type" := JStr (if is_v3 g then py "Pi Camera V3"
                             else py "HQ or other camera") ]}.

End WithGlobals.

(** The [/latest_capture] handler. *)
Definition latest_capture : M response :=
  try_except
    (do* listing := os_listdir CAPTURE_FOLDER in
     let files := List.filter (startswith (py "capture_")) listing in
     match files with
     | [] =>
         ret (with_status
                (jsonify {[ "success" := JBool false;
                            "error" := JStr (py "No captures found") ]}) 404)
     | _ =>
         do* latest := lift (max_key elt_int files) in
         ret (jsonify {[ "success" := JBool true;
                         "filename" := JStr latest ]})
     end)
    (fun e =>
       ret (with_status
              (jsonify {[ "success" := JBool false;
                          "error" := JStr (exn_str e) ]}) 500)).

End Handlers.

(** ** Serving a capture: Flask's [send_from_directory]

    [serve_capture] hands the request's path to [send_from_directory],
    which joins it to the directory with werkzeug's [safe_join] and answers
    404 when the join is refused or the result is not a regular file. The
    definitions follow [posixpath.normpath], [werkzeug.security.safe_join]
    and [werkzeug.utils.send_from_directory] on POSIX. *)

(** The loop of [posixpath.normpath] over the components; [stack] is
    [new_comps], last component first. *)
Fixpoint collapse (rooted : bool) (stack comps : list str) : list str :=
  match comps with
  | [] => stack
  | comp :: rest =>
      if str_eqb comp [] || str_eqb comp (py ".") then
        collapse rooted stack rest
      else if negb (str_eqb comp (py ".."))
              || (negb rooted && match stack with [] => true | _ => false end)
              || match stack with
                 | top :: _ => str_eqb top (py "..")
                 | [] => false
                 end
      then collapse rooted (comp :: stack) rest
      else match stack with
           | _ :: stack' => collapse rooted stack' rest
           | [] => collapse rooted stack rest
           end
  end.

(** [posixpath.normpath(path)] *)
Definition normpath (path : str) : str :=
  match path with
  | [] => py "."
  | _ =>
      let initial_slashes : nat :=
        if startswith (py "/") path then
          if startswith (py "//") path && negb (startswith (py "///") path)
          then 2%nat else 1%nat
        else 0%nat in
      let comps :=
        rev (collapse (negb (Nat.eqb initial_slashes 0)) []
               (split cp_slash path)) in
      let path' := replicate initial_slashes cp_slash ++ join cp_slash comps in
      match path' with
      | [] => py "."
      | _ => path'
      end
  end.

(** [werkzeug.security.safe_join(directory, filename)] on POSIX, where no
    alternative separator exists. *)
Definition safe_join (directory filename : str) : option str :=
  let directory := match directory with [] => py "." | _ => directory end in
  let filename :=
    match filename with
    | [] => filename
    | _ => normpath filename
    end in
  if startswith (py "/") filename
     || str_eqb filename (py "..")
     || startswith (py "../") filename
  then None
  else Some (path_join directory filename).

Definition not_found : response := Response 404 ErrorPage.

(** The file system as [send_from_directory] and the statements see it:
    [regular_file p] is [os.path.isfile(p)], which follows symbolic links,
    and [realpath p] is the path that [p] names once its symbolic links are
    resolved. *)
Record filesystem := Filesystem {
  regular_file : str -> bool;
  realpath : str -> str
}.

(** [send_from_directory(directory, path)] of Flask, which hands the
    application's [root_path] to werkzeug: the result of [safe_join] is
    joined to it before the test for a regular file and the opening. The
    answer is that to a request without conditional or range headers. *)
Definition send_from_directory (fs : filesystem)
    (root_path directory path : str) : response :=
  match safe_join directory path with
  | None => not_found
  | Some joined =>
      let path_str := path_join root_path joined in
      if regular_file fs path_str then Response 200 (FileAt path_str)
      else not_found
  end.

(** The [/captures/<path:filename>] handler; [root_path] is
    [app.root_path], the directory of [cam.py]. *)
Definition serve_capture (fs : filesystem) (root_path filename : str)
    : response :=
  send_from_directory fs root_path CAPTURE_FOLDER filename.

(** ** The statements' vocabulary *)

(** The text of [s] before the first character on which [stop] holds. *)
Fixpoint upto (stop : N -> bool) (s : str) : str :=
  match s with
  | [] => []
  | c :: s' => if stop c then [] else c :: upto stop s'
  end.

(** The text of [s] after the first occurrence of [sep]. *)
Fixpoint after_first (sep : N) (s : str) : str :=
  match s with
  | [] => []
  | c :: s' => if c =? sep then s' else after_first sep s'
  end.

(** The numeric component of a name: the text after the first underscore,
    up to the next underscore or dot. *)
Definition component (f : str) : str :=
  upto (fun c => (c =? cp_underscore) || (c =? cp_dot))
       (after_first cp_underscore f).

(** The text between the first underscore and the dot that follows it. *)
Definition portion_to_dot (f : str) : str :=
  upto (fun c => c =? cp_dot) (after_first cp_underscore f).

(** The value [parse_digits] accumulates over a run of decimal digits. *)
Definition horner (acc : Z) (s : str) : Z :=
  fold_left (fun acc c => (10 * acc + default 0 (decimal_value c))%Z) s acc.

(** The value of a run of decimal digits, most significant first. *)
Definition decimal_number (s : str) : Z := horner 0 s.

(** A name that counts towards the next capture number. *)
Definition counted (f : str) : bool :=
  startswith (py "capture_") f && isdigit (component f).

(** A name whose numeric component passes [isdigit] and is not decimal:
    [int] raises on it. *)
Definition undecodable (f : str) : bool :=
  isdigit (component f) && negb (isdecimal (component f)).

(** The runs of code points [str.isdigit] accepts. *)
Definition digit_spans : list (N * N) :=
  List.map (fun z => (z, z + 9)) decimal_zeros
  ++ List.map (fun r => r.1) digit_runs.

(** The runs of the code points that [int] skips or reads as a sign, and
    of the separators of a name: no digit is among them. *)
Definition exempt_spans : list (N * N) :=
  [(9, 13); (32, 32); (43, 43); (45, 47); (95, 95); (0x85, 0x85);
   (0xA0, 0xA0); (0x1680, 0x1680); (0x2000, 0x200A); (0x2028, 0x2029);
   (0x202F, 0x202F); (0x205F, 0x205F); (0x3000, 0x3000)].

Definition exempt (c : N) : bool :=
  existsb (fun r => in_range r.1 r.2 c) exempt_spans.

(** Two runs without a common code point. *)
Definition apart (r r' : N * N) : bool := (r.2 <? r'.1) || (r'.2 <? r.1).

(** A listing on which [int] raises for no counted name. *)
Definition decodable (listing : list str) : bool :=
  forallb (fun f => negb (counted f) || isdecimal (component f)) listing.

(** A name of the form [capture_<n>.jpg]. *)
Definition capture_jpg (f : str) : Prop :=
  exists n, isdigit n = true /\ f = py "capture_" ++ n ++ py ".jpg".

(** The numbering rule read by the text up to the dot: the two examples,
    and a name whose text between the first underscore and the following
    dot is not all digits changes nothing. *)
Definition numbering_by_dot_portion : Prop :=
  get_next_capture_number [] = Ok 1%Z
  /\ get_next_capture_number [py "capture_3.jpg"; py "capture_7.jpg"]
     = Ok 8%Z
  /\ forall l1 l2 f,
       isdigit (portion_to_dot f) = false ->
       get_next_capture_number (l1 ++ f :: l2)
       = get_next_capture_number (l1 ++ l2).

(** The numbering rule read with the extension: only the names of the form
    [capture_<n>.jpg] contribute. *)
Definition numbering_from_jpg_only : Prop :=
  forall l1 l2 f,
    ~ capture_jpg f ->
    get_next_capture_number (l1 ++ f :: l2)
    = get_next_capture_number (l1 ++ l2).

(** A name whose numeric component is the superscript two. *)
Definition superscript_name : str := py "capture_" ++ [0xB2] ++ py ".jpg".

(** The two shapes of a JSON answer. *)
Definition success_response (filename : str) : response :=
  Response 200
    (JSON {[ "success" := JBool true; "filename" := JStr filename ]}).

Definition error_response (code : N) (message : str) : response :=
  Response code
    (JSON {[ "success" := JBool false; "error" := JStr message ]}).

(** An environment in which no call raises. *)
Definition never_fails (listing : list str) : environment :=
  Environment (fun _ _ => None) listing.

(** The identification of a V3 camera, as [str()] prints it. *)
Definition v3_identification : pyval :=
  VCameraInfo (py "[{'Model': 'imx708', 'Location': 2, 'Rotation': 180, 'Num': 0}]").

(** ** Case-insensitive containment of the V3 marker *)

Definition MARKER : str := py "imx708".

(** [c] is the character [m], or its capital when [m] is a small letter. *)
Definition same_letter (c m : N) : Prop :=
  c = m \/ (97 <= m <= 122 /\ c + 32 = m).

(** [s] contains the marker, letter case aside. *)
Definition contains_marker (s : str) : Prop :=
  exists pre mid post, s = pre ++ mid ++ post /\ Forall2 same_letter mid MARKER.

Definition same_letterb (c m : N) : bool :=
  (c =? m) || (in_range 97 122 m && (c + 32 =? m)).

Fixpoint ci_startswith (w s : str) : bool :=
  match w, s with
  | [], _ => true
  | _ :: _, [] => false
  | m :: w', c :: s' => same_letterb c m && ci_startswith w' s'
  end.

Fixpoint ci_in (w s : str) : bool :=
  ci_startswith w s ||
  match s with
  | [] => false
  | _ :: s' => ci_in w s'
  end.

(** A character of a needle that [str.lower] yields only for itself and
    its capital. *)
Definition plain_small (m : N) : Prop :=
  m < 128 /\ ~ (65 <= m <= 90) /\ m <> 0x6B.

(** ** The calls of a still capture *)

(** The events of making the calls [cs] in order from the log [log], up to
    and including the first call that raises. *)
Fixpoint attempt (env : environment) (log : list event) (cs : list call)
    : list event :=
  match cs with
  | [] => []
  | c :: cs' =>
      match fault env log c with
      | None => succeeded c :: attempt env (log ++ [succeeded c]) cs'
      | Some e => [Event c (Some e)]
      end
  end.

(** The exception of the first event that raised. *)
Fixpoint first_raised (evs : list event) : option exn :=
  match evs with
  | [] => None
  | ev :: evs' =>
      match ev_raised ev with
      | Some e => Some e
      | None => first_raised evs'
      end
  end.

(** Back to streaming: stop, configure for streaming, start. *)
Definition restore_calls (g : globals) : list call :=
  [Stop; Configure (video_config g); Start].

Definition capture_name (n : Z) : str :=
  py "capture_" ++ str_of_int n ++ py ".jpg".

Definition capture_path (n : Z) : str :=
  py "captures/" ++ capture_name n.

(** The calls of a still capture numbered [n], after the directory scan. *)
Definition still_sequence (g : globals) (n : Z) : list call :=
  [Stop; Configure (still_config g); Start]
  ++ (if is_v3 g then [Sleep 500] else [])
  ++ [CaptureFile (capture_path n)]
  ++ restore_calls g.

(** An environment in which capturing the frame to the file raises and
    every other call succeeds. *)
Definition capture_file_fails (message : str) (listing : list str)
    : environment :=
  Environment
    (fun _ c =>
       match c with
       | CaptureFile _ => Some (Exn RuntimeError message)
       | _ => None
       end)
    listing.

(** The globals of a service on a camera without the V3 marker. *)
Definition generic_globals : globals :=
  startup (VCameraInfo (py "[{'Model': 'imx477'}]")) (py "7f6b2c1d9e50").

Definition v3_globals : globals :=
  startup v3_identification (py "7f6b2c1d9e50").

(** ** Paths below the capture directory *)

(** Walking the components from [depth] directories below the start goes
    above the start. *)
Fixpoint climbs (depth : nat) (comps : list str) : bool :=
  match comps with
  | [] => false
  | comp :: rest =>
      if str_eqb comp [] || str_eqb comp (py ".") then climbs depth rest
      else if str_eqb comp (py "..") then
        match depth with
        | O => true
        | S d => climbs d rest
        end
      else climbs (S depth) rest
  end.

(** A path traversal: an absolute path, or a relative path that at some
    component is above the directory it starts from. *)
Definition traverses (filename : str) : bool :=
  startswith (py "/") filename || climbs 0 (split cp_slash filename).

(** [p] names, component by component, something in [dir] or below it.
    Symbolic links play no part in it. *)
Definition inside (dir p : str) : Prop :=
  exists rel,
    p = dir ++ cp_slash :: rel /\ climbs 0 (split cp_slash rel) = false.

(** The capture directory as [send_from_directory] opens it, below the
    application's root path. *)
Definition capture_directory (root_path : str) : str :=
  path_join root_path CAPTURE_FOLDER.

(** Whatever [/captures/<filename>] serves resolves to a path inside the
    capture directory. *)
Definition serves_resolved_inside (fs : filesystem) (root_path : str)
    : Prop :=
  forall filename p,
    serve_capture fs root_path filename = Response 200 (FileAt p) ->
    inside (realpath fs (capture_directory root_path)) (realpath fs p).

(** A root path of the application. *)
Definition app_root : str := py "/home/pi/pi_cam".

(** A file system whose regular files are [/etc/passwd] and, through the
    symbolic link [notes.jpg] in the capture directory, the same file
    under the name of the link. *)
Definition linked_fs : filesystem :=
  let link := py "/home/pi/pi_cam/captures/notes.jpg" in
  let target := py "/etc/passwd" in
  {| regular_file p := str_eqb p link || str_eqb p target;
     realpath p := if str_eqb p link then target else p |}.


(** ** The frame stream *)

(** A [bytes] value. *)
Definition bytes := list Byte.byte.

(** An ASCII bytes literal of the source, without its escapes. *)
Definition b (s : string) : bytes := list_byte_of_string s.

(** [b'\r\n'] *)
Definition CRLF : bytes := [Byte.x0d; Byte.x0a].

(** The two adjacent literals of line 86:
    [b'--frame\r\n' b'Content-Type: image/jpeg\r\n\r\n']. *)
Definition frame_header : bytes :=
  (b "--frame" ++ CRLF) ++ (b "Content-Type: image/jpeg" ++ CRLF ++ CRLF).

(** The value [gen_frames] yields for the JPEG data [stream.getvalue()]. *)
Definition frame_segment (jpeg : bytes) : bytes :=
  frame_header ++ jpeg ++ CRLF.

(** The mimetype [video_feed] declares. *)
Definition video_feed_mimetype : string :=
  "multipart/x-mixed-replace; boundary=frame".

(** The [boundary] parameter of a mimetype. *)
Definition mimetype_boundary (m : string) : string :=
  match String.index 0 "boundary=" m with
  | Some i => String.substring (i + 9) (String.length m - (i + 9)) m
  | None => ""
  end.

(** The state of the generator [gen_frames()]: suspended in its loop
    after [k] frames, or finished by an exception. *)
Inductive generator :=
| Looping (k : nat)
| Finished.

(** What one [next()] on the generator gives. *)
Inductive next_result :=
| Yield (segment : bytes)
| Raises (e : exn)
| StopIteration.

Section Stream.

(** The camera while streaming: [capture_jpeg k] is what the call
    [picam2.capture_file(stream, format='jpeg')] number [k] writes to the
    stream, or the exception it raises. *)
Variable capture_jpeg : nat -> result bytes.

(** One [next()] on [gen_frames()]: one turn of the loop of lines 83 to
    87. An exception of the capture is not caught and ends the generator. *)
Definition gen_frames_next (gen : generator) : next_result * generator :=
  match gen with
  | Looping k =>
      match capture_jpeg k with
      | Ok jpeg => (Yield (frame_segment jpeg), Looping (S k))
      | Raise e => (Raises e, Finished)
      end
  | Finished => (StopIteration, Finished)
  end.

(** A consumer that asks for at most [n] elements and stops at the first
    exception or at the end of the generator: the segments it received, how
    the iteration ended if it did, and the generator afterwards. *)
Fixpoint consume (n : nat) (gen : generator)
    : list bytes * option next_result * generator :=
  match n with
  | O => ([], None, gen)
  | S n' =>
      match gen_frames_next gen with
      | (Yield segment, gen') =>
          let '(segments, ending, gen'') := consume n' gen' in
          (segment :: segments, ending, gen'')
      | (ending, gen') => ([], Some ending, gen')
      end
  end.

End Stream.

(** The first [n] captures of the camera, up to the first that raises. *)
Fixpoint captured (capture_jpeg : nat -> result bytes) (from n : nat)
    : list bytes :=
  match n with
  | O => []
  | S n' =>
      match capture_jpeg from with
      | Ok jpeg => jpeg :: captured capture_jpeg (S from) n'
      | Raise _ => []
      end
  end.

(** The exception of the first of the [n] captures from [from] that
    raises. *)
Fixpoint first_failure (capture_jpeg : nat -> result bytes) (from n : nat)
    : option exn :=
  match n with
  | O => None
  | S n' =>
      match capture_jpeg from with
      | Ok _ => first_failure capture_jpeg (S from) n'
      | Raise e => Some e
      end
  end.

(** ** More vocabulary for the statements *)

(** The two pairs of configurations the start-up can select. *)
Definition v3_video_config : configuration :=
  Configuration Video (Some (1920, 1080)%Z)
    {[ "AfMode" := AfModeEnum_Continuous;
       "AfRange" := AfRangeEnum_Normal;
       "AfMetering" := AfMeteringEnum_Windows;
       "AfWindows" := Rectangles [(864, 486, 192, 108)%Z];
       "FrameDurationLimits" := Limits 100000 100000 ]}.

Definition v3_still_config : configuration :=
  Configuration Still (Some (4608, 2592)%Z) {[ "AfMode" := AfModeEnum_Auto ]}.

Definition generic_video_config : configuration :=
  Configuration Video (Some (640, 480)%Z) ∅.

Definition generic_still_config : configuration :=
  Configuration Still None ∅.


(** A name on which the key of [latest_capture] raises. *)
Definition unparsable (f : str) : bool :=
  match elt_int f with
  | Ok _ => false
  | Raise _ => true
  end.

(** * Properties *)

(** One test of a chain of [if]s at a time. *)
Ltac split_if :=
  match goal with
  | |- context [if ?b then _ else _] =>
      let E := fresh "E" in destruct b eqn:E
  end.

(** Boolean range tests of the hypotheses as arithmetic facts. *)
Ltac arith_of_bool :=
  unfold in_range, cp_underscore, cp_minus, cp_plus, cp_dot, cp_slash in *;
  repeat match goal with
    | H : _ && _ = true |- _ => apply andb_true_iff in H as [? ?]
    | H : _ && _ = false |- _ => apply andb_false_iff in H
    | H : _ || _ = true |- _ => apply orb_true_iff in H as [?|?]
    | H : _ || _ = false |- _ => apply orb_false_iff in H as [? ?]
    | H : N.leb _ _ = true |- _ => apply N.leb_le in H
    | H : N.leb _ _ = false |- _ => apply N.leb_gt in H
    | H : N.eqb _ _ = true |- _ => apply N.eqb_eq in H
    | H : N.eqb _ _ = false |- _ => apply N.eqb_neq in H
    end.

(** ** Text *)

Lemma startswith_app p s : startswith p (p ++ s) = true.
Proof.
  induction p as [|a p IH]; simpl; [done|].
  by rewrite N.eqb_refl.
Qed.

Lemma startswith_inv p s :
  startswith p s = true -> exists r, s = p ++ r.
Proof.
  revert s; induction p as [|a p IH]; intros s H; simpl in *.
  - by exists s.
  - destruct s as [|b s]; [done|].
    apply andb_true_iff in H as [Hab Hp].
    apply N.eqb_eq in Hab as ->.
    destruct (IH _ Hp) as [r ->]. by exists r.
Qed.

Lemma split_head sep s :
  exists ps, split sep s = upto (fun c => c =? sep) s :: ps.
Proof.
  induction s as [|c s [ps IH]]; simpl; [by exists []|].
  destruct (c =? sep); [by eexists|].
  rewrite IH. by eexists.
Qed.

Lemma split_after sep s :
  sep ∈ s ->
  exists ps, split sep s =
    upto (fun c => c =? sep) s :: upto (fun c => c =? sep) (after_first sep s)
      :: ps.
Proof.
  induction s as [|c s IH]; intros Hin; simpl.
  - by apply elem_of_nil in Hin.
  - destruct (N.eqb_spec c sep) as [->|Hne].
    + destruct (split_head sep s) as [ps ->]. by eexists.
    + apply elem_of_cons in Hin as [->|Hin]; [done|].
      destruct (IH Hin) as [ps ->]. by eexists.
Qed.

Lemma upto_upto stop1 stop2 s :
  upto stop2 (upto stop1 s) = upto (fun c => stop1 c || stop2 c) s.
Proof.
  induction s as [|c s IH]; simpl; [done|].
  destruct (stop1 c); simpl; [done|].
  destruct (stop2 c); [done|]. by rewrite IH.
Qed.

(** On a name with an underscore, the expression of the source selects the
    numeric component and raises no [IndexError]. *)
Lemma number_part_component f :
  cp_underscore ∈ f -> number_part f = Ok (component f).
Proof.
  intros Hin. unfold number_part, component.
  destruct (split_after cp_underscore f Hin) as [ps ->].
  simpl.
  destruct (split_head cp_dot
              (upto (fun c => c =? cp_underscore)
                    (after_first cp_underscore f))) as [qs ->].
  simpl. by rewrite upto_upto.
Qed.

Lemma prefix_has_underscore f :
  startswith (py "capture_") f = true -> cp_underscore ∈ f.
Proof.
  intros H. apply startswith_inv in H as [r ->].
  vm_compute py. set_solver.
Qed.

(** ** Digits and [int] *)

Lemma is_digit_span c :
  is_digit c = true ->
  exists r, In r digit_spans /\ in_range r.1 r.2 c = true.
Proof.
  unfold is_digit, numeric, digit_spans.
  destruct (List.find _ decimal_zeros) as [z|] eqn:Ez.
  - intros _. apply List.find_some in Ez as [Hin Hr].
    exists (z, z + 9). split; [|done].
    apply in_app_iff. left. by apply (in_map (fun z => (z, z + 9))).
  - destruct (List.find _ digit_runs) as [r|] eqn:Er; [|done].
    intros _. apply List.find_some in Er as [Hin Hr].
    exists r.1. split; [|done].
    apply in_app_iff. right. by apply (in_map (fun r => r.1)).
Qed.

Lemma in_span_exempt lo hi c :
  In (lo, hi) exempt_spans -> lo <= c <= hi -> exempt c = true.
Proof.
  intros Hin Hc. apply existsb_exists. exists (lo, hi). split; [done|].
  unfold in_range. simpl. apply andb_true_iff.
  split; apply N.leb_le; lia.
Qed.

Ltac in_exempt lo hi :=
  apply (in_span_exempt lo hi);
  [repeat (first [left; reflexivity | right]) | lia].

Lemma space_exempt c : is_space c = true -> exempt c = true.
Proof.
  unfold is_space. intros H. arith_of_bool;
    first [ in_exempt 9 13 | in_exempt 32 32 | in_exempt 0x85 0x85
          | in_exempt 0xA0 0xA0 | in_exempt 0x1680 0x1680
          | in_exempt 0x2000 0x200A | in_exempt 0x2028 0x2029
          | in_exempt 0x202F 0x202F | in_exempt 0x205F 0x205F
          | in_exempt 0x3000 0x3000 ].
Qed.

(** No run of digits meets a run of exempt code points. *)
Lemma spans_apart :
  forallb (fun r => forallb (apart r) exempt_spans) digit_spans = true.
Proof. by vm_compute. Qed.

Lemma digit_not_exempt c : is_digit c = true -> exempt c = false.
Proof.
  intros (r & Hr & Hc)%is_digit_span.
  destruct (exempt c) eqn:E; [|done].
  apply existsb_exists in E as (r' & Hr' & Hc').
  pose proof spans_apart as Ha.
  rewrite forallb_forall in Ha. specialize (Ha r Hr).
  rewrite forallb_forall in Ha. specialize (Ha r' Hr').
  unfold apart in Ha. unfold in_range in Hc, Hc'.
  rewrite orb_true_iff, !N.ltb_lt in Ha.
  arith_of_bool; lia.
Qed.

Lemma digit_not_space c : is_digit c = true -> is_space c = false.
Proof.
  intros H%digit_not_exempt. destruct (is_space c) eqn:E; [|done].
  apply space_exempt in E. congruence.
Qed.

Lemma digit_not_eq c x :
  is_digit c = true -> exempt x = true -> (c =? x) = false.
Proof.
  intros H%digit_not_exempt Hx. apply N.eqb_neq. intros ->. congruence.
Qed.

Lemma digit_not_sign c :
  is_digit c = true ->
  (c =? cp_minus) = false /\ (c =? cp_plus) = false
  /\ (c =? cp_underscore) = false.
Proof. intros H. by rewrite !(digit_not_eq c _ H). Qed.

Lemma digit_not_separator c :
  is_digit c = true ->
  (c =? cp_underscore) = false /\ (c =? cp_dot) = false
  /\ (c =? cp_slash) = false.
Proof. intros H. by rewrite !(digit_not_eq c _ H). Qed.

Lemma decimal_is_digit c : is_decimal c = true -> is_digit c = true.
Proof. unfold is_decimal, is_digit. by destruct (numeric c). Qed.

Lemma decimal_value_spec c :
  decimal_value c =
    if is_decimal c then Some (default 0%Z (decimal_value c)) else None.
Proof. unfold decimal_value, is_decimal. by destruct (numeric c). Qed.

Lemma decimal_value_range c d :
  decimal_value c = Some d -> (0 <= d <= 9)%Z.
Proof.
  unfold decimal_value, numeric.
  destruct (List.find _ decimal_zeros) as [z|] eqn:Ez.
  - intros [= <-]. apply List.find_some in Ez as [_ Hr].
    unfold in_range in Hr. arith_of_bool; lia.
  - by destruct (List.find _ digit_runs).
Qed.

Lemma lstrip_digits p : forallb is_digit p = true -> lstrip p = p.
Proof.
  destruct p as [|c p]; simpl; [done|].
  intros [Hc _]%andb_true_iff. by rewrite (digit_not_space c Hc).
Qed.

Lemma forallb_rev {A} (f : A -> bool) l :
  forallb f (rev l) = forallb f l.
Proof.
  induction l as [|a l IH]; simpl; [done|].
  rewrite forallb_app, IH. simpl. rewrite andb_true_r. apply andb_comm.
Qed.

Lemma strip_digits p : forallb is_digit p = true -> strip p = p.
Proof.
  intros H. unfold strip. rewrite (lstrip_digits p H).
  rewrite lstrip_digits by (by rewrite forallb_rev).
  apply rev_involutive.
Qed.

Lemma parse_digits_digits p acc prev :
  forallb is_digit p = true ->
  p <> [] \/ prev = true ->
  parse_digits acc prev p =
    if forallb is_decimal p then Some (horner acc p) else None.
Proof.
  revert acc prev; induction p as [|c p IH]; intros acc prev Hd Hne; simpl.
  - destruct Hne as [?| ->]; done.
  - simpl in Hd. apply andb_true_iff in Hd as [Hc Hp].
    rewrite decimal_value_spec. destruct (is_decimal c); simpl.
    + rewrite IH by auto. done.
    + destruct (digit_not_sign c Hc) as (_ & _ & ->). done.
Qed.

Lemma isdigit_forallb p :
  isdigit p = true -> forallb is_digit p = true /\ p <> [].
Proof. by destruct p. Qed.

(** [int] on text that passed [isdigit]: the value when every character is
    a decimal digit, [ValueError] otherwise. *)
Lemma py_int_isdigit p :
  isdigit p = true ->
  py_int p =
    if isdecimal p then Ok (decimal_number p) else Raise (invalid_literal p).
Proof.
  intros [Hd Hne]%isdigit_forallb. unfold py_int.
  rewrite (strip_digits p Hd).
  destruct p as [|c p]; [done|].
  pose proof Hd as Hd'. simpl in Hd'. apply andb_true_iff in Hd' as [Hc _].
  destruct (digit_not_sign c Hc) as (-> & -> & _).
  rewrite parse_digits_digits by auto.
  unfold isdecimal, decimal_number.
  by destruct (forallb is_decimal (c :: p)).
Qed.

Lemma horner_bounds p acc : (0 <= acc)%Z -> (acc <= horner acc p)%Z.
Proof.
  revert acc; induction p as [|c p IH]; intros acc Hacc; simpl; [lia|].
  unfold horner in *. simpl.
  assert (0 <= default 0 (decimal_value c) <= 9)%Z as Hd.
  { destruct (decimal_value c) as [d|] eqn:E; simpl; [|lia].
    by apply decimal_value_range in E. }
  etrans; [|apply IH]; lia.
Qed.

Lemma decimal_number_nonneg p : (0 <= decimal_number p)%Z.
Proof. apply (horner_bounds p 0). lia. Qed.

(** ** [max] *)

Lemma fold_max_ge l x : (x <= fold_left Z.max l x)%Z.
Proof.
  revert x; induction l as [|a l IH]; intros x; simpl; [lia|].
  etrans; [|apply IH]. lia.
Qed.

Lemma fold_max_upper l x y :
  y ∈ l -> (y <= fold_left Z.max l x)%Z.
Proof.
  revert x; induction l as [|a l IH]; intros x Hin; simpl.
  - by apply elem_of_nil in Hin.
  - apply elem_of_cons in Hin as [->|Hin]; [|by apply IH].
    etrans; [|apply fold_max_ge]. lia.
Qed.

Lemma fold_max_elem l x : fold_left Z.max l x ∈ x :: l.
Proof.
  revert x; induction l as [|a l IH]; intros x; simpl.
  - apply elem_of_cons. by left.
  - specialize (IH (Z.max x a)).
    destruct (Z.max_spec x a) as [[_ E]|[_ E]]; rewrite E in IH |- *.
    + apply elem_of_cons. by right.
    + apply elem_of_cons in IH as [IH|IH]; rewrite ?elem_of_cons; auto.
Qed.

Lemma max_default_upper d l y : y ∈ l -> (y <= max_default d l)%Z.
Proof.
  destruct l as [|x l]; simpl; intros Hin.
  - by apply elem_of_nil in Hin.
  - apply elem_of_cons in Hin as [->|Hin];
      [apply fold_max_ge | by apply fold_max_upper].
Qed.

Lemma max_default_elem d l :
  (l = [] /\ max_default d l = d) \/ max_default d l ∈ l.
Proof.
  destruct l as [|x l]; simpl; [by left|]. right. apply fold_max_elem.
Qed.

(** ** The next capture number *)

(** What the comprehension of line 79 computes on names that start with
    [capture_]. *)
Lemma numbers_spec l :
  Forall (fun f => startswith (py "capture_") f = true) l ->
  comprehension cond_digit elt_int l =
    match List.find undecodable l with
    | Some f => Raise (invalid_literal (component f))
    | None =>
        Ok (List.map (fun f => decimal_number (component f))
              (List.filter (fun f => isdigit (component f)) l))
    end.
Proof.
  induction 1 as [|f l Hf Hl IH]; simpl; [done|].
  unfold cond_digit, elt_int, undecodable in *.
  rewrite (number_part_component f (prefix_has_underscore f Hf)). simpl.
  destruct (isdigit (component f)) eqn:Hd; simpl; [|apply IH].
  rewrite (py_int_isdigit _ Hd).
  destruct (isdecimal (component f)); simpl; [|done].
  rewrite IH. by destruct (List.find _ l).
Qed.

Lemma filter_prefix_Forall listing :
  Forall (fun f => startswith (py "capture_") f = true)
    (List.filter (startswith (py "capture_")) listing).
Proof.
  apply List.Forall_forall. intros f Hin. by apply filter_In in Hin as [_ ?].
Qed.

Lemma filter_counted listing :
  List.filter (fun f => isdigit (component f))
    (List.filter (startswith (py "capture_")) listing) =
  List.filter counted listing.
Proof.
  unfold counted.
  induction listing as [|f l IH]; [done|].
  cbn [List.filter].
  destruct (startswith (py "capture_") f); cbn [List.filter andb]; [|done].
  destruct (isdigit (component f)); by rewrite IH.
Qed.

Lemma get_next_capture_number_spec listing :
  get_next_capture_number listing =
    match List.find undecodable
            (List.filter (startswith (py "capture_")) listing) with
    | Some f => Raise (invalid_literal (component f))
    | None =>
        Ok (max_default 0
              (List.map (fun f => decimal_number (component f))
                 (List.filter counted listing)) + 1)%Z
    end.
Proof.
  unfold get_next_capture_number.
  rewrite (numbers_spec _ (filter_prefix_Forall listing)).
  destruct (List.find _ _); simpl; [done|].
  by rewrite filter_counted.
Qed.

Lemma find_app {A} (P : A -> bool) l1 l2 :
  List.find P (l1 ++ l2) =
    match List.find P l1 with
    | Some x => Some x
    | None => List.find P l2
    end.
Proof.
  induction l1 as [|a l1 IH]; simpl; [done|]. by destruct (P a).
Qed.

(** A name that is not counted does not change the result, whatever else
    the directory holds. *)
Lemma get_next_capture_number_skip l1 f l2 :
  counted f = false ->
  get_next_capture_number (l1 ++ f :: l2) = get_next_capture_number (l1 ++ l2).
Proof.
  intros Hf. rewrite !get_next_capture_number_spec.
  assert (List.filter counted (l1 ++ f :: l2) = List.filter counted (l1 ++ l2))
    as ->.
  { rewrite !List.filter_app. cbn [List.filter]. by rewrite Hf. }
  assert (List.find undecodable
            (List.filter (startswith (py "capture_")) (l1 ++ f :: l2)) =
          List.find undecodable
            (List.filter (startswith (py "capture_")) (l1 ++ l2))) as ->; [|done].
  rewrite !List.filter_app, !find_app. cbn [List.filter].
  destruct (List.find undecodable _); [done|].
  unfold counted in Hf.
  destruct (startswith (py "capture_") f); [|done].
  cbn [List.find]. unfold undecodable at 1.
  cbn [andb] in Hf. by rewrite Hf.
Qed.

Lemma counted_skip_all l :
  Forall (fun f => counted f = false) l ->
  get_next_capture_number l = Ok 1%Z.
Proof.
  induction 1 as [|f l Hf Hl IH]; [done|].
  rewrite <- IH. exact (get_next_capture_number_skip [] f l Hf).
Qed.

Lemma not_digit_not_counted f :
  isdigit (component f) = false -> counted f = false.
Proof. unfold counted. intros ->. apply andb_false_r. Qed.

Lemma decodable_find listing :
  decodable listing = true ->
  List.find undecodable
    (List.filter (startswith (py "capture_")) listing) = None.
Proof.
  unfold decodable, counted, undecodable.
  induction listing as [|f l IH]; [done|].
  cbn [forallb List.filter]. intros [Hf Hl]%andb_true_iff.
  destruct (startswith (py "capture_") f); [|by apply IH].
  cbn [List.find]. cbn [andb] in Hf.
  destruct (isdigit (component f)); cbn [andb negb orb] in *; [|by apply IH].
  rewrite Hf. by apply IH.
Qed.

(** C4 (as amended). [get_next_capture_number] returns 1 on an empty
    directory and 8 on a directory that holds exactly [capture_3.jpg] and
    [capture_7.jpg], in either order; a name whose text between the first
    underscore and the next underscore or dot is not a non-empty run of
    digits is ignored, that is, the result is what it is without that name;
    and a directory of such names alone gives 1, without an exception. *)
Theorem next_number_examples :
  get_next_capture_number [] = Ok 1%Z
  /\ get_next_capture_number [py "capture_3.jpg"; py "capture_7.jpg"]
     = Ok 8%Z
  /\ get_next_capture_number [py "capture_7.jpg"; py "capture_3.jpg"]
     = Ok 8%Z
  /\ (forall l1 l2 f,
        isdigit (component f) = false ->
        get_next_capture_number (l1 ++ f :: l2)
        = get_next_capture_number (l1 ++ l2))
  /\ (forall l,
        Forall (fun f => isdigit (component f) = false) l ->
        get_next_capture_number l = Ok 1%Z).
Proof.
  split; [reflexivity|]. split; [reflexivity|]. split; [reflexivity|].
  split.
  - intros l1 l2 f Hf.
    by apply get_next_capture_number_skip, not_digit_not_counted.
  - intros l Hl. apply counted_skip_all.
    eapply Forall_impl; [exact Hl|]. apply not_digit_not_counted.
Qed.

Lemma next_number_examples_witness :
  get_next_capture_number
    ([py "capture_3.jpg"] ++ py "capture_abc.jpg" :: [py "capture_.jpg"])
  = get_next_capture_number ([py "capture_3.jpg"] ++ [py "capture_.jpg"])
  /\ get_next_capture_number [py "capture_abc.jpg"; py "capture_"] = Ok 1%Z.
Proof.
  split.
  - apply (proj1 (proj2 (proj2 (proj2 next_number_examples)))).
    reflexivity.
  - apply (proj2 (proj2 (proj2 (proj2 next_number_examples)))).
    repeat constructor.
Defined.

(** C4, as stated, fails: in [capture_12_ab.jpg] the text between the
    first underscore and the following dot is [12_ab], not all digits, and
    the name is counted with the number 12. *)
Lemma dot_portion_counterexample : ~ numbering_by_dot_portion.
Proof.
  intros (_ & _ & H).
  specialize (H [] [] (py "capture_12_ab.jpg") eq_refl).
  vm_compute in H. discriminate H.
Qed.

Lemma counted_any_suffix n rest :
  isdigit n = true ->
  match rest with
  | [] => True
  | c :: _ => c = cp_dot \/ c = cp_underscore
  end ->
  component (py "capture_" ++ n ++ rest) = n
  /\ counted (py "capture_" ++ n ++ rest) = true.
Proof.
  intros Hn Hrest.
  assert (component (py "capture_" ++ n ++ rest) = n) as Hc.
  { unfold component. change (after_first cp_underscore _) with (n ++ rest).
    apply isdigit_forallb in Hn as [Hn _].
    induction n as [|c n IH]; simpl.
    - destruct rest as [|c rest]; [done|].
      by destruct Hrest as [-> | ->].
    - simpl in Hn. apply andb_true_iff in Hn as [Hc Hn].
      destruct (digit_not_separator c Hc) as (-> & -> & _).
      simpl. f_equal. by apply IH. }
  split; [done|].
  unfold counted. rewrite Hc, Hn, startswith_app. done.
Qed.

(** C5 (as amended). On every directory listing on which [int] accepts
    the numeric component of each counted name, the next capture number is
    computed from exactly the names that start with [capture_] and whose
    text between the first underscore and the next underscore or dot is a
    non-empty run of digits, whatever follows that component: it is greater
    than the number of each such name, and it is 1 when there is none and
    the number of one of them plus 1 otherwise. The extension plays no part:
    a name with any text after its digits, behind a dot or an underscore, is
    counted. *)
Theorem next_number_from_counted listing :
  decodable listing = true ->
  (exists n,
     get_next_capture_number listing = Ok n
     /\ (forall f, f ∈ listing -> counted f = true ->
           (decimal_number (component f) < n)%Z)
     /\ ((n = 1%Z /\ forall f, f ∈ listing -> counted f = false)
         \/ exists f, f ∈ listing /\ counted f = true
                      /\ n = (decimal_number (component f) + 1)%Z))
  /\ (forall digits rest,
        isdigit digits = true ->
        match rest with
        | [] => True
        | c :: _ => c = cp_dot \/ c = cp_underscore
        end ->
        component (py "capture_" ++ digits ++ rest) = digits
        /\ counted (py "capture_" ++ digits ++ rest) = true).
Proof.
  intros Hdec. split; [|apply counted_any_suffix].
  rewrite get_next_capture_number_spec, (decodable_find _ Hdec).
  set (ns := List.map (fun f => decimal_number (component f))
               (List.filter counted listing)).
  exists (max_default 0 ns + 1)%Z. split; [done|]. split.
  - intros f Hin Hc.
    assert (decimal_number (component f) ∈ ns) as Hns.
    { apply list_elem_of_In, in_map_iff. exists f. split; [done|].
      apply filter_In. split; [by apply list_elem_of_In|done]. }
    apply (max_default_upper 0) in Hns. lia.
  - destruct (max_default_elem 0 ns) as [[Hnil ->]|Hin].
    + left. split; [done|]. intros f Hin.
      destruct (counted f) eqn:Hc; [|done].
      assert (In f (List.filter counted listing)) as Hf.
      { apply filter_In. split; [by apply list_elem_of_In|done]. }
      apply (in_map (fun f => decimal_number (component f))) in Hf.
      fold ns in Hf. rewrite Hnil in Hf. destruct Hf.
    + right. apply list_elem_of_In, in_map_iff in Hin as (f & Hf & Hin).
      apply filter_In in Hin as [Hin Hc].
      exists f. split; [by apply list_elem_of_In|]. split; [done|]. lia.
Qed.

Lemma next_number_from_counted_witness :
  decodable [py "capture_3.jpg"; py "capture_9.png"; py "notes.txt"] = true
  /\ (exists n,
       get_next_capture_number
         [py "capture_3.jpg"; py "capture_9.png"; py "notes.txt"] = Ok n
       /\ (n = 1%Z \/ exists f, counted f = true
                       /\ n = (decimal_number (component f) + 1)%Z))
  /\ counted (py "capture_" ++ py "9" ++ py ".png") = true.
Proof.
  split; [reflexivity|]. split.
  - destruct (proj1 (next_number_from_counted
                [py "capture_3.jpg"; py "capture_9.png"; py "notes.txt"]
                eq_refl)) as (n & Hn & _ & Hmax).
    exists n. split; [exact Hn|].
    destruct Hmax as [[-> _]|(f & _ & Hc & ->)]; [by left|right; eauto].
  - apply (proj2 (next_number_from_counted [] eq_refl)
             (py "9") (py ".png") eq_refl).
    by left.
Defined.

Lemma png_not_capture_jpg : ~ capture_jpg (py "capture_9.png").
Proof.
  intros (n & _ & H).
  change (py "capture_9.png") with (py "capture_" ++ py "9.png") in H.
  apply app_inv_head in H. vm_compute in H.
  do 6 (try (destruct n as [|? n]; simpl in H; [discriminate H|];
             first [discriminate H | injection H as _ H])).
Qed.

(** C5, as stated, fails: [capture_9.png] does not match
    [capture_<n>.jpg], and it raises the next number from 1 to 10. *)
Lemma jpg_only_counterexample : ~ numbering_from_jpg_only.
Proof.
  intros H.
  specialize (H [] [] (py "capture_9.png") png_not_capture_jpg).
  vm_compute in H. discriminate H.
Qed.

(** C10. On a directory that holds [capture_².jpg] the digit check of
    line 79 lets the name through, since [str.isdigit] accepts the
    superscript two, and [int] then raises [ValueError]:
    [get_next_capture_number] does not return. *)
Theorem next_number_raises_on_superscript :
  startswith (py "capture_") superscript_name = true
  /\ number_part superscript_name = Ok [0xB2]
  /\ isdigit [0xB2] = true
  /\ py_int [0xB2] = Raise (invalid_literal [0xB2])
  /\ get_next_capture_number [superscript_name]
     = Raise (invalid_literal [0xB2]).
Proof. repeat split; reflexivity. Qed.

(** ** The listing of the latest capture *)

Lemma latest_capture_unfold env log :
  latest_capture env log =
    match fault env log (Listdir CAPTURE_FOLDER) with
    | Some e =>
        (Ok (error_response 500 (exn_str e)),
         log ++ [Event (Listdir CAPTURE_FOLDER) (Some e)])
    | None =>
        let log' := log ++ [succeeded (Listdir CAPTURE_FOLDER)] in
        match List.filter (startswith (py "capture_")) (files env) with
        | [] => (Ok (error_response 404 (py "No captures found")), log')
        | f :: fs =>
            match max_key elt_int (f :: fs) with
            | Ok latest => (Ok (success_response latest), log')
            | Raise e => (Ok (error_response 500 (exn_str e)), log')
            end
        end
    end.
Proof.
  unfold latest_capture, try_except, os_listdir, bind, perform, ret, lift.
  destruct (fault env log (Listdir CAPTURE_FOLDER)); [done|].
  destruct (List.filter _ (files env)) as [|f fs]; [done|].
  by destruct (max_key elt_int (f :: fs)).
Qed.

Lemma max_key_from_spec {A} (key : A -> result Z) l best kbest x :
  key best = Ok kbest ->
  max_key_from key best kbest l = Ok x ->
  x ∈ best :: l
  /\ exists kx, key x = Ok kx /\ (kbest <= kx)%Z
       /\ forall y, y ∈ l -> exists ky, key y = Ok ky /\ (ky <= kx)%Z.
Proof.
  revert best kbest; induction l as [|a l IH]; intros best kbest Hb; simpl.
  - intros [= <-]. split; [by apply elem_of_cons; left|].
    exists kbest. split; [done|]. split; [lia|].
    intros y Hy. by apply elem_of_nil in Hy.
  - destruct (key a) as [ka|e] eqn:Ha; simpl; [|done].
    destruct (Z.ltb_spec kbest ka) as [Hlt|Hge]; intros Hx.
    + destruct (IH a ka Ha Hx) as (Hin & kx & Hkx & Hle & Hall).
      split.
      { apply elem_of_cons. right. exact Hin. }
      exists kx. split; [done|]. split; [lia|].
      intros y [->|Hy]%elem_of_cons; [exists ka; split; [done|lia]|].
      by apply Hall.
    + destruct (IH best kbest Hb Hx) as (Hin & kx & Hkx & Hle & Hall).
      split.
      { apply elem_of_cons in Hin as [->|Hin];
          rewrite !elem_of_cons; auto. }
      exists kx. split; [done|]. split; [lia|].
      intros y [->|Hy]%elem_of_cons; [exists ka; split; [done|lia]|].
      by apply Hall.
Qed.

(** [max(l, key=key)] returns an element of [l] whose key no other key
    exceeds. *)
Lemma max_key_spec {A} (key : A -> result Z) l x :
  max_key key l = Ok x ->
  x ∈ l
  /\ exists kx, key x = Ok kx
       /\ forall y, y ∈ l -> exists ky, key y = Ok ky /\ (ky <= kx)%Z.
Proof.
  destruct l as [|a l]; simpl; [done|].
  destruct (key a) as [ka|e] eqn:Ha; simpl; [|done].
  intros Hx.
  destruct (max_key_from_spec key l a ka x Ha Hx) as (Hin & kx & Hkx & Hle & Hall).
  split; [done|]. exists kx. split; [done|].
  intros y [->|Hy]%elem_of_cons; [exists ka; split; [done|lia]|].
  by apply Hall.
Qed.

Lemma Ok_inj {A} (a b : A) : Ok a = Ok b -> a = b.
Proof.
  intros H.
  by apply (f_equal (fun r => match r with Ok x => x | Raise _ => a end)) in H.
Qed.

Lemma success_response_inj f h :
  success_response f = success_response h -> f = h.
Proof.
  intros H.
  apply (f_equal (fun r => match body r with
                           | JSON o => o !! "filename"
                           | _ => None
                           end)) in H.
  change (Some (JStr f) = Some (JStr h)) in H. by injection H.
Qed.

(** C7. When the directory can be listed: if it holds no name that starts
    with [capture_], [/latest_capture] answers 404 with [success] false and
    the error [No captures found]; if the names that start with [capture_]
    are [capture_1.jpg] and [capture_2.jpg], in either order, it answers
    [success] true with [capture_2.jpg]; and whenever it answers with a
    file name, that name is in the directory, starts with [capture_], and
    no name that starts with [capture_] has a greater number. *)
Theorem latest_capture_answers env log :
  fault env log (Listdir CAPTURE_FOLDER) = None ->
  let log' := log ++ [succeeded (Listdir CAPTURE_FOLDER)] in
  (List.filter (startswith (py "capture_")) (files env) = [] ->
   latest_capture env log
   = (Ok (error_response 404 (py "No captures found")), log'))
  /\ (List.filter (startswith (py "capture_")) (files env)
        ≡ₚ [py "capture_1.jpg"; py "capture_2.jpg"] ->
      latest_capture env log
      = (Ok (success_response (py "capture_2.jpg")), log'))
  /\ (forall f,
        (latest_capture env log).1 = Ok (success_response f) ->
        f ∈ files env /\ startswith (py "capture_") f = true
        /\ exists n, elt_int f = Ok n
             /\ forall h, h ∈ files env ->
                  startswith (py "capture_") h = true ->
                  exists m, elt_int h = Ok m /\ (m <= n)%Z).
Proof.
  intros Hls log'. rewrite latest_capture_unfold, Hls. cbn zeta.
  split; [by intros ->|]. split.
  - intros Hp.
    assert (List.filter (startswith (py "capture_")) (files env)
            = [py "capture_1.jpg"; py "capture_2.jpg"]
            \/ List.filter (startswith (py "capture_")) (files env)
               = [py "capture_2.jpg"; py "capture_1.jpg"]) as [-> | ->].
    { destruct (List.filter _ (files env)) as [|a [|b [|c l]]].
      - by apply Permutation_nil_l in Hp.
      - apply Permutation_length in Hp. done.
      - apply Permutation_length_2 in Hp as [[-> ->]|[-> ->]]; auto.
      - apply Permutation_length in Hp. done. }
    + reflexivity.
    + reflexivity.
  - intros f.
    destruct (List.filter _ (files env)) as [|a l] eqn:Hfl; [done|].
    destruct (max_key elt_int (a :: l)) as [latest|e] eqn:Hmax; [|done].
    cbn [fst]. intros <-%Ok_inj%success_response_inj.
    destruct (max_key_spec _ _ _ Hmax) as (Hin & n & Hn & Hall).
    assert (forall h, h ∈ a :: l <->
              h ∈ files env /\ startswith (py "capture_") h = true) as Hmem.
    { intros h. rewrite <- Hfl, !list_elem_of_In. apply filter_In. }
    apply Hmem in Hin as [Hin Hp]. split; [done|]. split; [done|].
    exists n. split; [done|]. intros h Hh Hhp. apply Hall, Hmem. done.
Qed.

Lemma latest_capture_answers_witness :
  latest_capture (never_fails [py "notes.txt"]) []
  = (Ok (error_response 404 (py "No captures found")),
     [succeeded (Listdir CAPTURE_FOLDER)])
  /\ latest_capture
       (never_fails [py "capture_2.jpg"; py "notes.txt"; py "capture_1.jpg"])
       []
     = (Ok (success_response (py "capture_2.jpg")),
        [succeeded (Listdir CAPTURE_FOLDER)])
  /\ py "capture_10.jpg" ∈ [py "capture_9.jpg"; py "capture_10.jpg"].
Proof.
  split; [|split].
  - apply (proj1 (latest_capture_answers
                    (never_fails [py "notes.txt"]) [] eq_refl)).
    reflexivity.
  - apply (proj1 (proj2 (latest_capture_answers
                    (never_fails
                       [py "capture_2.jpg"; py "notes.txt";
                        py "capture_1.jpg"]) [] eq_refl))).
    vm_compute. apply perm_swap.
  - apply (proj2 (proj2 (latest_capture_answers
                    (never_fails [py "capture_9.jpg"; py "capture_10.jpg"])
                    [] eq_refl))
             (py "capture_10.jpg") eq_refl).
Defined.

(** C8. A name that starts with [capture_] and has no number is left out
    by [get_next_capture_number], which returns 1 on a directory that holds
    [capture_abc.jpg] alone; [/latest_capture] on the same directory does
    not leave it out: [int] raises on [abc] and the answer is 500. *)
Theorem latest_capture_malformed_name :
  get_next_capture_number [py "capture_abc.jpg"] = Ok 1%Z
  /\ latest_capture (never_fails [py "capture_abc.jpg"]) []
     = (Ok (error_response 500 (exn_str (invalid_literal (py "abc")))),
        [succeeded (Listdir CAPTURE_FOLDER)]).
Proof. split; reflexivity. Qed.

(** ** The module's globals and [/camera_info] *)

Lemma startup_is_v3 ident addr :
  is_v3 (startup ident addr) = py_in (py "imx708") (lower (py_str ident)).
Proof. unfold startup. by destruct (py_in _ _). Qed.

Lemma startup_camera_info ident addr :
  camera_info (startup ident addr) = VFunction (py "camera_info") addr.
Proof. unfold startup. by destruct (py_in _ _). Qed.

(** C6. [/camera_info] answers a JSON object with the fields [is_v3],
    [info] and [type]; [is_v3] is the flag computed at start-up and [type]
    follows it; but [info] is not the text of the identification: when the
    handler runs, the global name [camera_info] is bound to the handler
    itself, and [info] is the text of that function object, as for the
    identification of a V3 camera. *)
Theorem camera_info_reports_handler ident addr :
  let shown := py "<function camera_info at 0x" ++ addr ++ py ">" in
  camera_info_handler (startup ident addr)
  = Response 200
      (JSON {[ "is_v3" := JBool (py_in (py "imx708") (lower (py_str ident)));
               "info" := JStr shown;
               "type" :=
                 JStr (if py_in (py "imx708") (lower (py_str ident))
                       then py "Pi Camera V3"
                       else py "HQ or other camera") ]})
  /\ camera_info_handler (startup v3_identification (py "7f6b2c1d9e50"))
     <> Response 200
          (JSON {[ "is_v3" := JBool true;
                   "info" := JStr (py_str v3_identification);
                   "type" := JStr (py "Pi Camera V3") ]}).
Proof.
  split.
  - unfold camera_info_handler, jsonify.
    by rewrite startup_is_v3, startup_camera_info.
  - intros H.
    apply (f_equal (fun r => match body r with
                             | JSON o => o !! "info"
                             | _ => None
                             end)) in H.
    vm_compute in H. discriminate H.
Qed.

(** ** The sensor profile *)

Ltac bool_arith :=
  unfold same_letterb, in_range;
  repeat match goal with
    | |- context [N.eqb ?a ?b] => destruct (N.eqb_spec a b)
    | |- context [N.leb ?a ?b] => destruct (N.leb_spec a b)
    end;
  simpl; try done; try lia.

Lemma lower_cp_cases c :
  (65 <= c <= 90 /\ lower_cp c = [c + 32])
  \/ (c = 0x130 /\ lower_cp c = [0x69; 0x307])
  \/ (c = 0x212A /\ lower_cp c = [0x6B])
  \/ (~ (65 <= c <= 90) /\ c <> 0x130 /\ c <> 0x212A /\ lower_cp c = [c]).
Proof.
  unfold lower_cp, in_range.
  destruct (N.leb_spec 65 c) as [H1|H1], (N.leb_spec c 90) as [H2|H2]; simpl;
    [left; split; [lia|done] | | | ];
    (destruct (N.eqb_spec c 0x130) as [->|H3]; [right; left; done|];
     destruct (N.eqb_spec c 0x212A) as [->|H4]; [right; right; left; done|];
     right; right; right; repeat split; try done; lia).
Qed.

Lemma startswith_lower_step m w :
  plain_small m ->
  (m = 0x69 -> exists m' w', w = m' :: w' /\ m' <> 0x307) ->
  (forall s, startswith w (lower s) = ci_startswith w s) ->
  forall s, startswith (m :: w) (lower s) = ci_startswith (m :: w) s.
Proof.
  intros (Hascii & Hup & Hk) Hi Hw [|c s]; [done|].
  cbn [lower flat_map ci_startswith].
  destruct (lower_cp_cases c) as [[Hc ->]|[[-> ->]|[[-> ->]|(Hc & H1 & H2 & ->)]]];
    cbn [app startswith].
  - fold (lower s). rewrite Hw. f_equal. bool_arith.
  - destruct (N.eqb_spec m 0x69) as [->|Hne].
    + destruct (Hi eq_refl) as (m' & w' & -> & Hm'). cbn [startswith andb].
      apply N.eqb_neq in Hm' as ->. done.
    + assert (same_letterb 0x130 m = false) as -> by bool_arith. done.
  - apply N.eqb_neq in Hk as ->.
    assert (same_letterb 0x212A m = false) as -> by bool_arith. done.
  - fold (lower s). rewrite Hw. f_equal. bool_arith.
Qed.

Lemma startswith_lower_marker s :
  startswith MARKER (lower s) = ci_startswith MARKER s.
Proof.
  revert s. unfold MARKER. vm_compute py.
  repeat (apply startswith_lower_step;
          [unfold plain_small; lia
          |intros; first [lia | eexists _, _; split; [reflexivity|lia]]|]).
  done.
Qed.

Lemma py_in_lower_marker s :
  py_in MARKER (lower s) = ci_in MARKER s.
Proof.
  induction s as [|c s IH]; [done|].
  cbn [ci_in]. rewrite <- startswith_lower_marker, <- IH.
  cbn [lower flat_map]. fold (lower s).
  destruct (lower_cp_cases c) as [[Hc ->]|[[-> ->]|[[-> ->]|(Hc & H1 & H2 & ->)]]];
    done.
Qed.

Lemma same_letterb_spec c m : same_letterb c m = true <-> same_letter c m.
Proof.
  unfold same_letterb, same_letter, in_range.
  rewrite orb_true_iff, !andb_true_iff, !N.leb_le, !N.eqb_eq. tauto.
Qed.

Lemma ci_startswith_spec w s :
  ci_startswith w s = true <->
  exists mid post, s = mid ++ post /\ Forall2 same_letter mid w.
Proof.
  revert s; induction w as [|m w IH]; intros s; simpl.
  - split; [|done]. intros _. exists [], s. split; [done|constructor].
  - destruct s as [|c s].
    + split; [done|]. intros (mid & post & Hs & Hf).
      destruct mid; [inversion Hf|done].
    + rewrite andb_true_iff, same_letterb_spec, IH. split.
      * intros (Hc & mid & post & -> & Hf).
        exists (c :: mid), post. split; [done|]. by constructor.
      * intros (mid & post & Hs & Hf).
        destruct mid as [|c' mid]; [inversion Hf|].
        injection Hs as <- ->. inversion Hf; subst.
        split; [done|]. by exists mid, post.
Qed.

Lemma ci_in_spec s : ci_in MARKER s = true <-> contains_marker s.
Proof.
  unfold contains_marker. induction s as [|c s IH]; cbn [ci_in].
  - rewrite orb_false_r, ci_startswith_spec. split.
    + intros (mid & post & Hs & Hf). by exists [], mid, post.
    + intros (pre & mid & post & Hs & Hf).
      destruct pre; [|done]. by exists mid, post.
  - rewrite orb_true_iff, ci_startswith_spec, IH. split.
    + intros [(mid & post & Hs & Hf)|(pre & mid & post & -> & Hf)].
      * by exists [], mid, post.
      * by exists (c :: pre), mid, post.
    + intros (pre & mid & post & Hs & Hf). destruct pre as [|c' pre].
      * left. by exists mid, post.
      * injection Hs as <- ->. right. by exists pre, mid, post.
Qed.

(** The test of line 18 decides the containment of the marker. *)
Lemma is_v3_spec ident addr :
  is_v3 (startup ident addr) = true <-> contains_marker (py_str ident).
Proof.
  rewrite startup_is_v3. fold MARKER.
  by rewrite py_in_lower_marker, ci_in_spec.
Qed.

(** C1. The profile depends on the identification through its text alone.
    When that text contains [imx708], letter case aside, the streaming
    configuration is 1920 by 1080 and the still configuration 4608 by 2592;
    when it does not, the streaming configuration is 640 by 480 and the
    still configuration names no size and no control, which leaves the
    device's default. *)
Theorem profile_selection ident addr :
  let g := startup ident addr in
  (contains_marker (py_str ident) ->
   size (video_config g) = Some (1920, 1080)%Z
   /\ size (still_config g) = Some (4608, 2592)%Z)
  /\ (~ contains_marker (py_str ident) ->
      size (video_config g) = Some (640, 480)%Z
      /\ size (still_config g) = None
      /\ controls (still_config g) = ∅)
  /\ (forall ident' addr',
        py_str ident' = py_str ident ->
        is_v3 (startup ident' addr') = is_v3 g
        /\ video_config (startup ident' addr') = video_config g
        /\ still_config (startup ident' addr') = still_config g).
Proof.
  cbn zeta. split; [|split].
  - intros H%(is_v3_spec ident addr). rewrite startup_is_v3 in H.
    unfold startup. by rewrite H.
  - intros H. assert (is_v3 (startup ident addr) = false) as Hv.
    { destruct (is_v3 (startup ident addr)) eqn:E; [|done].
      by apply is_v3_spec in E. }
    rewrite startup_is_v3 in Hv. unfold startup. by rewrite Hv.
  - intros ident' addr' Heq. unfold startup. rewrite Heq.
    by destruct (py_in _ _).
Qed.

Lemma profile_selection_witness :
  (size (video_config (startup v3_identification (py "7f6b2c1d9e50")))
   = Some (1920, 1080)%Z
   /\ size (still_config (startup v3_identification (py "7f6b2c1d9e50")))
      = Some (4608, 2592)%Z)
  /\ size (video_config
             (startup (VCameraInfo (py "[{'Model': 'imx477'}]")) (py "7f00")))
     = Some (640, 480)%Z
  /\ video_config (startup v3_identification (py "55d0a3c0"))
     = video_config (startup v3_identification (py "7f6b2c1d9e50")).
Proof.
  split; [|split].
  - apply (proj1 (profile_selection v3_identification (py "7f6b2c1d9e50"))).
    apply ci_in_spec. reflexivity.
  - apply (proj1 (proj2 (profile_selection
                           (VCameraInfo (py "[{'Model': 'imx477'}]"))
                           (py "7f00")))).
    intros H%ci_in_spec. discriminate H.
  - apply (proj2 (proj2 (profile_selection v3_identification
                           (py "7f6b2c1d9e50")))
             v3_identification (py "55d0a3c0") eq_refl).
Defined.

(** ** The still capture *)

Lemma path_join_capture n :
  path_join CAPTURE_FOLDER (capture_name n) = capture_path n.
Proof. reflexivity. Qed.

(** The [try] body of [capture], call by call. *)
Lemma capture_body_run env g log :
  capture_body env g log =
    match fault env log (Listdir CAPTURE_FOLDER) with
    | Some e => (Raise e, log ++ [Event (Listdir CAPTURE_FOLDER) (Some e)])
    | None =>
        let log1 := log ++ [succeeded (Listdir CAPTURE_FOLDER)] in
        match get_next_capture_number (files env) with
        | Raise e => (Raise e, log1)
        | Ok n =>
            let made := attempt env log1 (still_sequence g n) in
            (match first_raised made with
             | None => Ok (success_response (capture_name n))
             | Some e => Raise e
             end, log1 ++ made)
        end
    end.
Proof.
  unfold capture_body, scan_next_capture_number, os_listdir, still_sequence,
    restore_calls, bind, perform, ret, lift, succeeded.
  cbv beta iota zeta.
  destruct (fault env log (Listdir CAPTURE_FOLDER)); [done|].
  cbv beta iota zeta.
  destruct (get_next_capture_number (files env)) as [n|e]; [|done].
  cbv beta iota zeta.
  change (path_join CAPTURE_FOLDER _) with (capture_path n).
  change (py "capture_" ++ str_of_int n ++ py ".jpg") with (capture_name n).
  fold (success_response (capture_name n)).
  destruct (is_v3 g); cbn [app attempt]; unfold succeeded;
    repeat (match goal with
            | |- context [fault env ?l ?c] => destruct (fault env l c)
            end; cbn [first_raised ev_raised succeeded];
            cbv beta iota zeta);
    rewrite <- ?app_assoc; reflexivity.
Qed.

Lemma capture_recover_run env g log :
  capture_recover env g log = (Ok tt, log ++ attempt env log (restore_calls g)).
Proof.
  unfold capture_recover, try_except, restore_calls, bind, perform, ret,
    succeeded.
  cbn [attempt]. unfold succeeded.
  repeat (match goal with
          | |- context [fault env ?l ?c] => destruct (fault env l c)
          end; cbv beta iota zeta);
    rewrite <- ?app_assoc; reflexivity.
Qed.

(** The handler: the answer of the body, or the recovery and a 500. *)
Lemma capture_run env g log :
  capture env g log =
    match capture_body env g log with
    | (Ok r, log1) => (Ok r, log1)
    | (Raise e, log1) =>
        (Ok (error_response 500 (exn_str e)),
         log1 ++ attempt env log1 (restore_calls g))
    end.
Proof.
  unfold capture, try_except.
  destruct (capture_body env g log) as [[r|e] log1]; [done|].
  unfold bind. rewrite capture_recover_run. reflexivity.
Qed.

Lemma attempt_app env log cs1 cs2 :
  attempt env log (cs1 ++ cs2) =
    match first_raised (attempt env log cs1) with
    | Some _ => attempt env log cs1
    | None =>
        attempt env log cs1
        ++ attempt env (log ++ attempt env log cs1) cs2
    end.
Proof.
  revert log; induction cs1 as [|c cs1 IH]; intros log; cbn [app attempt].
  - cbn [first_raised]. by rewrite app_nil_r.
  - destruct (fault env log c) as [e|] eqn:Hc; [done|].
    cbn [first_raised ev_raised succeeded]. rewrite IH.
    destruct (first_raised _); [done|].
    cbn [app]. by rewrite <- app_assoc.
Qed.

Lemma attempt_all_succeeded env log cs :
  first_raised (attempt env log cs) = None ->
  attempt env log cs = succeeded <$> cs.
Proof.
  revert log; induction cs as [|c cs IH]; intros log; cbn [attempt]; [done|].
  destruct (fault env log c); [done|].
  cbn [first_raised ev_raised succeeded]. intros H.
  rewrite (IH _ H). done.
Qed.

(** C2. The handler of [/capture] always returns an answer, and the calls
    it made end with an attempt to restore streaming: stop, configure for
    streaming, start, up to the first of them that raises. When the body of
    its [try] returns, these are its last three calls and the answer is the
    body's; when the body raises [e], the attempt follows, whatever it
    raises changes nothing, and the answer is 500 with [success] false and
    [error] the text of [e]. *)
Theorem capture_restores env g log :
  exists resp made,
    capture env g log = (Ok resp, log ++ made)
    /\ (exists before,
          made = before ++ attempt env (log ++ before) (restore_calls g))
    /\ (forall r log1,
          capture_body env g log = (Ok r, log1) ->
          resp = r /\ log1 = log ++ made
          /\ exists before, made = before ++ (succeeded <$> restore_calls g))
    /\ (forall e log1,
          capture_body env g log = (Raise e, log1) ->
          resp = error_response 500 (exn_str e)
          /\ log ++ made = log1 ++ attempt env log1 (restore_calls g)).
Proof.
  rewrite capture_run, capture_body_run.
  set (ls := Listdir CAPTURE_FOLDER).
  destruct (fault env log ls) as [e|] eqn:Hls.
  { exists (error_response 500 (exn_str e)),
           ([Event ls (Some e)]
            ++ attempt env (log ++ [Event ls (Some e)]) (restore_calls g)).
    split; [by rewrite app_assoc|].
    split; [by exists [Event ls (Some e)]|].
    split; [done|]. intros e' log1 [= <- <-]. by rewrite app_assoc. }
  cbv zeta.
  destruct (get_next_capture_number (files env)) as [n|e].
  2:{ exists (error_response 500 (exn_str e)),
             ([succeeded ls]
              ++ attempt env (log ++ [succeeded ls]) (restore_calls g)).
      split; [by rewrite app_assoc|].
      split; [by exists [succeeded ls]|].
      split; [done|]. intros e' log1 [= <- <-]. by rewrite app_assoc. }
  set (log1 := log ++ [succeeded ls]).
  set (made := attempt env log1 (still_sequence g n)).
  destruct (first_raised made) as [e|] eqn:Hr.
  { exists (error_response 500 (exn_str e)),
           (([succeeded ls] ++ made)
            ++ attempt env (log ++ [succeeded ls] ++ made) (restore_calls g)).
    split; [unfold log1; by rewrite <- !app_assoc|].
    split; [by exists ([succeeded ls] ++ made)|].
    split; [done|]. intros e' log2 [= <- <-].
    unfold log1. by rewrite <- !app_assoc. }
  exists (success_response (capture_name n)), ([succeeded ls] ++ made).
  split; [unfold log1; by rewrite <- app_assoc|].
  set (pre := [Stop; Configure (still_config g); Start]
              ++ (if is_v3 g then [Sleep 500] else [])
              ++ [CaptureFile (capture_path n)]).
  assert (still_sequence g n = pre ++ restore_calls g) as Hseq.
  { unfold still_sequence, pre. by rewrite <- !app_assoc. }
  assert (made = attempt env log1 pre
                 ++ attempt env (log1 ++ attempt env log1 pre)
                      (restore_calls g)) as Hmade.
  { unfold made in Hr |- *. rewrite Hseq, attempt_app in Hr |- *.
    destruct (first_raised (attempt env log1 pre)) eqn:Hpre; [|done].
    by rewrite Hpre in Hr. }
  split.
  { exists ([succeeded ls] ++ attempt env log1 pre).
    rewrite Hmade. unfold log1. by rewrite <- !app_assoc. }
  split; [|done].
  intros r log2 H. injection H as <- <-.
  split; [done|]. split; [unfold log1; by rewrite <- app_assoc|].
  exists ([succeeded ls] ++ (succeeded <$> pre)).
  unfold made. rewrite (attempt_all_succeeded _ _ _ Hr), Hseq, fmap_app.
  by rewrite <- app_assoc.
Qed.

Lemma capture_restores_witness :
  exists resp made,
    capture (capture_file_fails (py "camera timeout") []) generic_globals []
    = (Ok resp, [] ++ made)
    /\ resp = error_response 500 (py "camera timeout").
Proof.
  destruct (capture_restores (capture_file_fails (py "camera timeout") [])
              generic_globals [])
    as (resp & made & Hrun & _ & _ & Hfail).
  exists resp, made. split; [exact Hrun|].
  exact (proj1 (Hfail (Exn RuntimeError (py "camera timeout")) _ eq_refl)).
Defined.

(** ** The generated name *)

Lemma horner_uint_acc u acc :
  horner (Zpos acc) (uint_digits u) = Zpos (Pos.of_uint_acc u acc).
Proof.
  revert acc; induction u as [|u IH|u IH|u IH|u IH|u IH|u IH|u IH|u IH|u IH|u IH];
    intros acc; cbn [uint_digits Pos.of_uint_acc]; [done|..];
    unfold horner in *; cbn [fold_left];
    match goal with
    | |- context [decimal_value ?c] =>
        let d := eval vm_compute in (decimal_value c) in
        change (decimal_value c) with d
    end; cbn [default from_option]; unfold id; rewrite <- IH; f_equal; lia.
Qed.

Lemma horner_uint u : horner 0 (uint_digits u) = Z.of_N (Pos.of_uint u).
Proof.
  induction u as [|u IH|u IH|u IH|u IH|u IH|u IH|u IH|u IH|u IH|u IH];
    cbn [uint_digits Pos.of_uint]; [done|exact IH|..];
    cbn [Z.of_N]; rewrite <- horner_uint_acc; reflexivity.
Qed.

Lemma uint_digits_decimal u : forallb is_decimal (uint_digits u) = true.
Proof.
  induction u; cbn [uint_digits forallb]; [done|..]; by rewrite IHu.
Qed.

(** [int(str(n))] is [n], and [str(n)] is a run of digits. *)
Lemma str_of_int_roundtrip n :
  (0 <= n)%Z ->
  isdigit (str_of_int n) = true /\ decimal_number (str_of_int n) = n.
Proof.
  intros Hn. destruct n as [|p|p]; [done| |lia].
  unfold str_of_int, decimal_number. cbn [Z.to_int].
  split.
  - pose proof (DecimalPos.Unsigned.to_uint_nonnil p) as Hnil.
    pose proof (uint_digits_decimal (Pos.to_uint p)) as Hd.
    destruct (Pos.to_uint p) eqn:E; [done|..];
      cbn [uint_digits isdigit] in *;
      (apply forallb_forall; intros c Hc; apply decimal_is_digit;
       by apply (proj1 (forallb_forall _ _) Hd)).
  - by rewrite horner_uint, DecimalPos.Unsigned.of_to.
Qed.

Lemma next_number_positive listing n :
  get_next_capture_number listing = Ok n -> (1 <= n)%Z.
Proof.
  rewrite get_next_capture_number_spec.
  destruct (List.find _ _); [done|]. intros [= <-].
  destruct (max_default_elem 0
              (List.map (fun f => decimal_number (component f))
                 (List.filter counted listing))) as [[_ ->]|Hin]; [lia|].
  apply list_elem_of_In, in_map_iff in Hin as (f & <- & _).
  pose proof (decimal_number_nonneg (component f)). lia.
Qed.

(** The name the capture is written to is not in the directory. *)
Lemma capture_name_fresh listing n :
  get_next_capture_number listing = Ok n -> capture_name n ∉ listing.
Proof.
  intros Hn Hin. pose proof (next_number_positive _ _ Hn) as Hpos.
  destruct (str_of_int_roundtrip n) as [Hd Hv]; [lia|].
  destruct (counted_any_suffix (str_of_int n) (py ".jpg") Hd) as [Hc Hcnt].
  { by left. }
  fold (capture_name n) in Hc, Hcnt.
  rewrite get_next_capture_number_spec in Hn.
  destruct (List.find _ _); [done|]. injection Hn as Hn.
  assert (n ∈ List.map (fun f => decimal_number (component f))
                (List.filter counted listing)) as Hmem.
  { apply list_elem_of_In, in_map_iff. exists (capture_name n).
    split; [by rewrite Hc|].
    apply filter_In. split; [by apply list_elem_of_In|done]. }
  apply (max_default_upper 0) in Hmem. lia.
Qed.

(** C3. With [n] the next capture number of the directory, the still
    capture lists the directory and then makes, in this order, the calls
    stop, configure for stills, start, a sleep of 500 ms when the V3
    profile is selected and none otherwise, the capture of one frame to
    [captures/capture_<n>.jpg], a name the directory does not hold, stop,
    configure for streaming, start. When
    none of them raises, exactly these calls are made and the answer is
    [success] true with the name [capture_<n>.jpg]; when one raises, the
    calls after it are not made, the restoration is attempted, and the
    answer is the failure with the text of the exception. When the number
    cannot be computed the answer is the failure as well. *)
Theorem capture_sequence env g log :
  let ls := Listdir CAPTURE_FOLDER in
  match get_next_capture_number (files env) with
  | Ok n =>
      let calls :=
        [ls; Stop; Configure (still_config g); Start]
        ++ (if is_v3 g then [Sleep 500] else [])
        ++ [CaptureFile (py "captures/capture_" ++ str_of_int n ++ py ".jpg");
            Stop; Configure (video_config g); Start] in
      let made := attempt env log calls in
      ((py "capture_" ++ str_of_int n ++ py ".jpg") ∉ files env)
      /\ (first_raised made = None ->
       made = succeeded <$> calls
       /\ capture env g log
          = (Ok (success_response
                   (py "capture_" ++ str_of_int n ++ py ".jpg")),
             log ++ made))
      /\ (forall e,
            first_raised made = Some e ->
            capture env g log
            = (Ok (error_response 500 (exn_str e)),
               log ++ made ++ attempt env (log ++ made) (restore_calls g)))
  | Raise e =>
      forall made,
        made = attempt env log [ls] ->
        capture env g log
        = (Ok (error_response 500
                 (exn_str (default e (first_raised made)))),
           log ++ made ++ attempt env (log ++ made) (restore_calls g))
  end.
Proof.
  cbv zeta. rewrite capture_run, capture_body_run.
  set (ls := Listdir CAPTURE_FOLDER).
  destruct (get_next_capture_number (files env)) as [n|e] eqn:Hnum.
  - split; [exact (capture_name_fresh _ _ Hnum)|].
    change ([ls; Stop; Configure (still_config g); Start]
            ++ (if is_v3 g then [Sleep 500] else [])
            ++ [CaptureFile (py "captures/capture_" ++ str_of_int n ++ py ".jpg");
                Stop; Configure (video_config g); Start])
      with (ls :: still_sequence g n).
    cbn [attempt].
    destruct (fault env log ls) as [e|] eqn:Hls.
    + cbn [first_raised ev_raised]. split; [done|].
      intros e' [= <-]. by rewrite <- app_assoc.
    + cbn [first_raised ev_raised succeeded].
      destruct (first_raised (attempt env _ (still_sequence g n)))
        as [e|] eqn:Hr.
      * split; [done|]. intros e' [= <-].
        by rewrite <- !app_assoc.
      * split; [|done]. intros _. rewrite <- app_assoc.
        split; [|done].
        by rewrite (attempt_all_succeeded _ _ _ Hr).
  - intros made ->. cbn [attempt].
    destruct (fault env log ls) as [e'|] eqn:Hls;
      cbn [first_raised ev_raised succeeded default];
      by rewrite <- !app_assoc.
Qed.

Lemma capture_sequence_witness :
  capture (never_fails [py "capture_3.jpg"; py "notes.txt"]) v3_globals []
  = (Ok (success_response (py "capture_4.jpg")),
     succeeded <$>
       [Listdir (py "captures"); Stop; Configure (still_config v3_globals);
        Start; Sleep 500; CaptureFile (py "captures/capture_4.jpg"); Stop;
        Configure (video_config v3_globals); Start])
  /\ capture (capture_file_fails (py "camera timeout") []) generic_globals []
     = (Ok (error_response 500 (py "camera timeout")),
        [succeeded (Listdir (py "captures")); succeeded Stop;
         succeeded (Configure (still_config generic_globals));
         succeeded Start;
         Event (CaptureFile (py "captures/capture_1.jpg"))
           (Some (Exn RuntimeError (py "camera timeout")));
         succeeded Stop;
         succeeded (Configure (video_config generic_globals));
         succeeded Start])
  /\ capture (never_fails [superscript_name]) generic_globals []
     = (Ok (error_response 500 (exn_str (invalid_literal [0xB2]))),
        [succeeded (Listdir (py "captures")); succeeded Stop;
         succeeded (Configure (video_config generic_globals));
         succeeded Start]).
Proof.
  split; [|split].
  - apply (proj1 (proj2 (capture_sequence
                    (never_fails [py "capture_3.jpg"; py "notes.txt"])
                    v3_globals [])) eq_refl).
  - apply (proj2 (proj2 (capture_sequence
                    (capture_file_fails (py "camera timeout") [])
                    generic_globals []))
             (Exn RuntimeError (py "camera timeout")) eq_refl).
  - apply (capture_sequence (never_fails [superscript_name])
             generic_globals [] _ eq_refl).
Defined.

(** ** Serving a capture *)

Lemma str_eqb_spec a b : str_eqb a b = true <-> a = b.
Proof.
  revert b; induction a as [|x a IH]; intros [|y b]; simpl; try done.
  rewrite andb_true_iff, N.eqb_eq, IH. split; [by intros [-> ->]|].
  by intros [= -> ->].
Qed.

Lemma str_eqb_refl a : str_eqb a a = true.
Proof. by apply str_eqb_spec. Qed.

Lemma str_eqb_neq a b : str_eqb a b = false <-> a <> b.
Proof.
  rewrite <- str_eqb_spec. by destruct (str_eqb a b).
Qed.

Lemma collapse_cons rooted stack comp rest :
  collapse rooted stack (comp :: rest) =
    if str_eqb comp [] || str_eqb comp (py ".") then
      collapse rooted stack rest
    else if negb (str_eqb comp (py ".."))
            || (negb rooted && match stack with [] => true | _ => false end)
            || match stack with
               | top :: _ => str_eqb top (py "..")
               | [] => false
               end
    then collapse rooted (comp :: stack) rest
    else match stack with
         | _ :: stack' => collapse rooted stack' rest
         | [] => collapse rooted stack rest
         end.
Proof. reflexivity. Qed.

Lemma climbs_cons depth comp rest :
  climbs depth (comp :: rest) =
    if str_eqb comp [] || str_eqb comp (py ".") then climbs depth rest
    else if str_eqb comp (py "..") then
      match depth with
      | O => true
      | S d => climbs d rest
      end
    else climbs (S depth) rest.
Proof. reflexivity. Qed.

(** The stack of [normpath] on a relative path: names, on top of the
    [..] components that climbed above the start; there is such a
    component exactly when the walk climbs. *)
Lemma collapse_shape comps names ups :
  Forall (fun c => c <> py "..") names ->
  Forall (fun c => c = py "..") ups ->
  exists names' ups',
    collapse false (names ++ ups) comps = names' ++ ups'
    /\ Forall (fun c => c <> py "..") names'
    /\ Forall (fun c => c = py "..") ups'
    /\ (ups' = [] <-> ups = [] /\ climbs (length names) comps = false).
Proof.
  revert names ups; induction comps as [|comp rest IH]; intros names ups Hn Hu.
  - exists names, ups. cbn [collapse climbs].
    split; [done|]. split; [done|]. split; [done|].
    split; [by intros ->|by intros [? _]].
  - rewrite collapse_cons, climbs_cons.
    destruct (str_eqb comp [] || str_eqb comp (py ".")); [by apply IH|].
    destruct (str_eqb comp (py "..")) eqn:Hc; cbn [negb orb andb].
    + apply str_eqb_spec in Hc as ->.
      destruct names as [|nm names]; cbn [app length].
      * destruct ups as [|u ups].
        { destruct (IH [] [py ".."]) as (n' & u' & E & Hn' & Hu' & Hiff);
            [done|by repeat constructor|].
          cbn [app] in E. exists n', u'. rewrite E.
          split; [done|]. split; [done|]. split; [done|].
          split; [intros H; by apply Hiff in H as [? _]|by intros [_ ?]]. }
        { inversion Hu as [|? ? Hu1 Hu2]; subst.
          rewrite str_eqb_refl.
          destruct (IH [] (py ".." :: py ".." :: ups))
            as (n' & u' & E & Hn' & Hu' & Hiff);
            [done|by repeat constructor|].
          cbn [app] in E. exists n', u'. rewrite E.
          split; [done|]. split; [done|]. split; [done|].
          split; [intros H; by apply Hiff in H as [? _]|by intros [? _]]. }
      * inversion Hn as [|? ? Hn1 Hn2]; subst.
        apply str_eqb_neq in Hn1 as ->.
        by apply IH.
    + apply str_eqb_neq in Hc.
      destruct (IH (comp :: names) ups) as (n' & u' & E & Hn' & Hu' & Hiff);
        [by constructor|done|].
      exists n', u'. cbn [app] in E. by rewrite E.
Qed.

Lemma join_cons_dotdot rest :
  str_eqb (join cp_slash (py ".." :: rest)) (py "..")
  || startswith (py "../") (join cp_slash (py ".." :: rest)) = true.
Proof. destruct rest; reflexivity. Qed.

Lemma climbs_no_dotdot depth comps :
  Forall (fun c => c <> py "..") comps -> climbs depth comps = false.
Proof.
  revert depth; induction comps as [|c comps IH]; intros depth H; [done|].
  inversion H as [|? ? Hc Hr]; subst. rewrite climbs_cons.
  destruct (_ || _); [by apply IH|].
  apply str_eqb_neq in Hc as ->. by apply IH.
Qed.

Lemma split_no_sep sep s : Forall (fun p => sep ∉ p) (split sep s).
Proof.
  induction s as [|c s IH]; simpl.
  - constructor; [apply not_elem_of_nil|constructor].
  - destruct (N.eqb_spec c sep) as [->|Hne].
    + constructor; [apply not_elem_of_nil|done].
    + destruct (split sep s) as [|p ps].
      * constructor; [|done]. intros [?|H]%elem_of_cons; [done|].
        by apply elem_of_nil in H.
      * inversion IH as [|? ? Hp Hps]; subst. constructor; [|done].
        intros [?|H]%elem_of_cons; [done|]. by apply Hp.
Qed.

Lemma split_app_sep sep p s :
  sep ∉ p -> split sep (p ++ sep :: s) = p :: split sep s.
Proof.
  induction p as [|c p IH]; intros Hp; simpl.
  - by rewrite N.eqb_refl.
  - destruct (N.eqb_spec c sep) as [->|Hne].
    + exfalso. apply Hp. by apply elem_of_cons; left.
    + rewrite IH; [done|]. intros H. apply Hp. by apply elem_of_cons; right.
Qed.

Lemma split_none sep p : sep ∉ p -> split sep p = [p].
Proof.
  induction p as [|c p IH]; intros Hp; simpl; [done|].
  destruct (N.eqb_spec c sep) as [->|Hne].
  - exfalso. apply Hp. by apply elem_of_cons; left.
  - rewrite IH; [done|]. intros H. apply Hp. by apply elem_of_cons; right.
Qed.

Lemma split_join sep comps :
  comps <> [] ->
  Forall (fun p => sep ∉ p) comps ->
  split sep (join sep comps) = comps.
Proof.
  induction comps as [|p comps IH]; intros Hne H; [done|].
  inversion H as [|? ? Hp Hps]; subst.
  destruct comps as [|q comps]; simpl.
  - by apply split_none.
  - rewrite split_app_sep by done. f_equal. by apply IH.
Qed.

Lemma collapse_Forall (P : str -> Prop) rooted comps stack :
  Forall P stack -> Forall P comps -> Forall P (collapse rooted stack comps).
Proof.
  revert stack; induction comps as [|c comps IH]; intros stack Hs Hc; [done|].
  inversion Hc as [|? ? Hc1 Hc2]; subst. rewrite collapse_cons.
  destruct (_ || _); [by apply IH|].
  destruct (_ || _); [apply IH; by try constructor|].
  destruct stack as [|t stack]; [by apply IH|].
  inversion Hs; subst. by apply IH.
Qed.

Lemma normpath_relative c filename :
  startswith (py "/") (c :: filename) = false ->
  normpath (c :: filename) =
    let joined :=
      join cp_slash
        (rev (collapse false [] (split cp_slash (c :: filename)))) in
    match joined with
    | [] => py "."
    | _ => joined
    end.
Proof. intros H. unfold normpath. by rewrite H. Qed.

Lemma normpath_absolute filename :
  startswith (py "/") filename = true ->
  startswith (py "/") (normpath filename) = true.
Proof.
  intros H. unfold normpath. destruct filename as [|c filename]; [done|].
  rewrite H. by destruct (_ && _).
Qed.

Lemma snoc_const (d : str) l : Forall (fun c => c = d) l -> l ++ [d] = d :: l.
Proof.
  induction 1 as [|c l -> Hl IH]; [done|]. simpl. by rewrite IH.
Qed.

Lemma rev_const (d : str) l : Forall (fun c => c = d) l -> rev l = l.
Proof.
  induction 1 as [|c l -> Hl IH]; [done|]. simpl.
  rewrite IH. by apply snoc_const.
Qed.

(** [safe_join] refuses every path traversal. *)
Lemma safe_join_traversal dir filename :
  traverses filename = true -> safe_join dir filename = None.
Proof.
  unfold traverses, safe_join. intros H.
  destruct filename as [|c filename]; [done|].
  destruct (startswith (py "/") (c :: filename)) eqn:Habs.
  { by rewrite (normpath_absolute _ Habs). }
  cbn [orb] in H. rewrite (normpath_relative _ _ Habs). cbv zeta.
  destruct (collapse_shape (split cp_slash (c :: filename)) [] [])
    as (names & ups & E & Hn & Hu & Hiff); [done..|].
  cbn [app length] in E, Hiff. rewrite E, rev_app_distr, (rev_const _ _ Hu).
  destruct ups as [|u ups].
  { destruct Hiff as [Hiff _]. destruct (Hiff eq_refl) as [_ Hc].
    by rewrite H in Hc. }
  inversion Hu as [|? ? -> Hu']; subst.
  pose proof (join_cons_dotdot (ups ++ rev names)) as Hj.
  cbn [app].
  destruct (join cp_slash (py ".." :: ups ++ rev names)) as [|x j] eqn:Ej;
    [done|].
  rewrite <- orb_assoc, Hj. by rewrite orb_true_r.
Qed.

(** What [safe_join] accepts is below the directory. *)
Lemma safe_join_inside filename p :
  safe_join CAPTURE_FOLDER filename = Some p -> inside CAPTURE_FOLDER p.
Proof.
  unfold safe_join.
  set (q := match filename with [] => filename | _ => normpath filename end).
  change (match CAPTURE_FOLDER with [] => py "." | _ => CAPTURE_FOLDER end)
    with CAPTURE_FOLDER.
  destruct (startswith (py "/") q) eqn:Habs; [done|]. cbn [orb].
  destruct (str_eqb q (py "..") || startswith (py "../") q) eqn:Hup;
    [done|].
  intros [= <-]. exists q. split.
  { unfold path_join. change (startswith [cp_slash] q)
      with (startswith (py "/") q). by rewrite Habs. }
  destruct filename as [|c filename]; [done|]. subst q.
  destruct (startswith (py "/") (c :: filename)) eqn:Habs'.
  { by rewrite (normpath_absolute _ Habs') in Habs. }
  destruct (climbs 0 (split cp_slash (c :: filename))) eqn:Hc.
  { assert (traverses (c :: filename) = true) as Ht.
    { unfold traverses. by rewrite Hc, orb_true_r. }
    apply (safe_join_traversal CAPTURE_FOLDER) in Ht.
    unfold safe_join in Ht. rewrite Habs in Ht. cbn [orb] in Ht.
    rewrite Hup in Ht. done. }
  rewrite (normpath_relative _ _ Habs'). cbv zeta.
  destruct (collapse_shape (split cp_slash (c :: filename)) [] [])
    as (names & ups & E & Hn & Hu & Hiff); [done..|].
  cbn [app length] in E, Hiff.
  destruct Hiff as [_ Hiff]. rewrite (Hiff (conj eq_refl Hc)) in E.
  rewrite app_nil_r in E.
  destruct (join cp_slash (rev (collapse false [] _))) as [|x j] eqn:Ej;
    [done|].
  rewrite <- Ej, split_join.
  - apply climbs_no_dotdot. rewrite E. by apply Forall_rev.
  - intros Hnil. by rewrite Hnil in Ej.
  - apply Forall_rev, collapse_Forall; [done|apply split_no_sep].
Qed.

Lemma path_join_capture_folder root rel :
  path_join root (CAPTURE_FOLDER ++ rel) = capture_directory root ++ rel.
Proof.
  unfold capture_directory, path_join.
  change (startswith [cp_slash] (CAPTURE_FOLDER ++ rel)) with false.
  change (startswith [cp_slash] CAPTURE_FOLDER) with false.
  cbv iota. destruct (last root) as [c|]; [|done].
  destruct (c =? cp_slash); by rewrite <- ?app_assoc.
Qed.

Lemma inside_root root p :
  inside CAPTURE_FOLDER p ->
  inside (capture_directory root) (path_join root p).
Proof.
  intros (rel & -> & Hrel). exists rel. split; [|done].
  apply path_join_capture_folder.
Qed.

(** C9 (as amended). [/captures/<filename>] answers with a file or with
    404. It answers with a file only when the path it opens is a regular
    file that lies, component by component, in the capture directory below
    the application's root path or below that directory; a symbolic link
    there is followed, so the claim as the specification words it, on the
    path the file resolves to, fails on [linked_fs]. A path traversal (an
    absolute path, or a relative one that climbs above the directory, as
    [../../etc/passwd] does) is answered with 404, whatever the root path
    and whatever files exist. *)
Theorem serve_capture_confined fs root_path filename :
  (serve_capture fs root_path filename = not_found
   \/ exists p,
        serve_capture fs root_path filename = Response 200 (FileAt p))
  /\ (forall p,
        serve_capture fs root_path filename = Response 200 (FileAt p) ->
        regular_file fs p = true
        /\ inside (capture_directory root_path) p)
  /\ (traverses filename = true ->
      serve_capture fs root_path filename = not_found)
  /\ traverses (py "../../etc/passwd") = true
  /\ serve_capture fs root_path (py "../../etc/passwd") = not_found.
Proof.
  unfold serve_capture, send_from_directory.
  split; [|split; [|split; [|split]]].
  - destruct (safe_join CAPTURE_FOLDER filename) as [p|]; [|by left].
    cbv zeta. destruct (regular_file fs _); [right; by eexists|by left].
  - intros p.
    destruct (safe_join CAPTURE_FOLDER filename) as [p'|] eqn:Hj; [|done].
    cbv zeta. destruct (regular_file fs _) eqn:Hf; [|done].
    intros [= <-]. split; [done|].
    by apply inside_root, (safe_join_inside filename).
  - intros Ht. by rewrite (safe_join_traversal _ _ Ht).
  - reflexivity.
  - reflexivity.
Qed.

Lemma serve_capture_confined_witness :
  inside (capture_directory app_root)
    (py "/home/pi/pi_cam/captures/capture_1.jpg")
  /\ serve_capture linked_fs app_root (py "captures/../../capture_1.jpg")
     = not_found.
Proof.
  split.
  - apply (proj1 (proj2 (serve_capture_confined
                           (Filesystem (fun _ => true) (fun p => p))
                           app_root (py "./capture_1.jpg")))
             (py "/home/pi/pi_cam/captures/capture_1.jpg") eq_refl).
  - apply (proj1 (proj2 (proj2 (serve_capture_confined
                                  linked_fs app_root
                                  (py "captures/../../capture_1.jpg"))))
             eq_refl).
Defined.

(** The claim as the specification words it fails where the capture
    directory holds a symbolic link that leads out of it: the request for
    [notes.jpg] is answered with the file that resolves to
    [/etc/passwd]. *)
Lemma symlink_counterexample :
  serve_capture linked_fs app_root (py "notes.jpg")
  = Response 200 (FileAt (py "/home/pi/pi_cam/captures/notes.jpg"))
  /\ realpath linked_fs (py "/home/pi/pi_cam/captures/notes.jpg")
     = py "/etc/passwd"
  /\ ~ serves_resolved_inside linked_fs app_root.
Proof.
  split; [reflexivity|]. split; [reflexivity|].
  intros H. specialize (H (py "notes.jpg") _ eq_refl).
  destruct H as (rel & E & _). vm_compute in E. discriminate E.
Qed.

(** ** The frame stream *)

(** X1. Every element [gen_frames] yields is the fixed 37-byte header (the
    delimiter line [--frame], which is [--] and the boundary that
    [video_feed] declares, the [Content-Type] line and an empty line), then
    the JPEG data unchanged, then a line break: the data is recovered from
    the segment by its position alone, whatever bytes it holds, and two
    frames give the same segment only if they are the same. *)
Theorem frame_segment_layout jpeg :
  length (frame_segment jpeg) = (length jpeg + 39)%nat
  /\ take 37 (frame_segment jpeg)
     = b ("--" ++ mimetype_boundary video_feed_mimetype) ++ CRLF
       ++ b "Content-Type: image/jpeg" ++ CRLF ++ CRLF
  /\ take (length jpeg) (drop 37 (frame_segment jpeg)) = jpeg
  /\ drop (37 + length jpeg) (frame_segment jpeg) = CRLF
  /\ (forall jpeg', frame_segment jpeg = frame_segment jpeg' -> jpeg = jpeg').
Proof.
  assert (forall j, drop 37 (frame_segment j) = j ++ CRLF) as Hdrop by done.
  split; [|split; [|split; [|split]]].
  - unfold frame_segment. rewrite !length_app.
    change (length frame_header) with 37%nat. change (length CRLF) with 2%nat.
    lia.
  - reflexivity.
  - rewrite Hdrop. by rewrite take_app_length.
  - rewrite <- drop_drop, Hdrop. by rewrite drop_app_length.
  - intros jpeg' H. apply (f_equal (drop 37)) in H.
    rewrite !Hdrop in H. by apply app_inv_tail in H.
Qed.

Lemma consume_from capture_jpeg n from :
  consume capture_jpeg n (Looping from) =
    (frame_segment <$> captured capture_jpeg from n,
     Raises <$> first_failure capture_jpeg from n,
     match first_failure capture_jpeg from n with
     | None => Looping (from + n)
     | Some _ => Finished
     end).
Proof.
  revert from; induction n as [|n IH]; intros from;
    cbn [consume captured first_failure gen_frames_next].
  - by rewrite Nat.add_0_r.
  - destruct (capture_jpeg from) as [jpeg|e]; [|done].
    rewrite IH. cbn [fmap list_fmap]. do 2 f_equal.
    destruct (first_failure _ _ _); [done|]. f_equal. lia.
Qed.

Lemma captured_length capture_jpeg n from :
  first_failure capture_jpeg from n = None ->
  length (captured capture_jpeg from n) = n
  /\ forall k, (k < n)%nat ->
       capture_jpeg (from + k)%nat
       = Ok (nth k (captured capture_jpeg from n) []).
Proof.
  revert from; induction n as [|n IH]; intros from;
    cbn [captured first_failure].
  - split; [done|]. lia.
  - destruct (capture_jpeg from) as [jpeg|e] eqn:E; [|done].
    intros H. destruct (IH _ H) as [Hlen Hnth]. split.
    + cbn [length]. by rewrite Hlen.
    + intros [|k] Hk; cbn [nth].
      * by rewrite Nat.add_0_r.
      * rewrite <- Hnth by lia. f_equal. lia.
Qed.

(** X2. A consumer that asks [gen_frames()] for [n] elements receives, in
    the order of the captures, one segment for each capture before the
    first that raises. The generator never ends by itself: when none of the
    [n] captures raises, the consumer has [n] segments, the one numbered [k]
    wrapping what capture [k] wrote, and the generator is still in its loop;
    when one raises, the exception reaches the consumer uncaught after the
    segments before it, and the generator is finished, so that a further
    [next()] gives [StopIteration] and makes no capture. *)
Theorem gen_frames_stream capture_jpeg n :
  consume capture_jpeg n (Looping 0)
  = (frame_segment <$> captured capture_jpeg 0 n,
     Raises <$> first_failure capture_jpeg 0 n,
     match first_failure capture_jpeg 0 n with
     | None => Looping n
     | Some _ => Finished
     end)
  /\ (first_failure capture_jpeg 0 n = None ->
      length (captured capture_jpeg 0 n) = n
      /\ forall k, (k < n)%nat ->
           capture_jpeg k = Ok (nth k (captured capture_jpeg 0 n) []))
  /\ (forall k e,
        (k < n)%nat ->
        (forall j, (j < k)%nat -> exists jpeg, capture_jpeg j = Ok jpeg) ->
        capture_jpeg k = Raise e ->
        first_failure capture_jpeg 0 n = Some e
        /\ length (captured capture_jpeg 0 n) = k)
  /\ gen_frames_next capture_jpeg Finished = (StopIteration, Finished).
Proof.
  split; [apply (consume_from capture_jpeg n 0)|].
  split; [apply (captured_length capture_jpeg n 0)|].
  split; [|done].
  intros k e Hk Hbefore Hraise.
  assert (forall from m j,
            (j < m)%nat ->
            (forall i, (i < j)%nat -> exists jpeg, capture_jpeg (from + i)%nat = Ok jpeg) ->
            capture_jpeg (from + j)%nat = Raise e ->
            first_failure capture_jpeg from m = Some e
            /\ length (captured capture_jpeg from m) = j) as Hgen.
  { intros from m; revert from; induction m as [|m IH]; intros from j Hj Hb Hr;
      [lia|]. cbn [first_failure captured].
    destruct j as [|j].
    - rewrite Nat.add_0_r in Hr. by rewrite Hr.
    - destruct (Hb 0%nat) as [jpeg Hjpeg]; [lia|].
      rewrite Nat.add_0_r in Hjpeg. rewrite Hjpeg.
      destruct (IH (S from) j) as [Hf Hl]; [lia| |by rewrite <- Hr; f_equal; lia|].
      + intros i Hi. destruct (Hb (S i)) as [d Hd]; [lia|].
        exists d. rewrite <- Hd. f_equal. lia.
      + split; [done|]. cbn [length]. by rewrite Hl. }
  apply (Hgen 0%nat n k Hk); [|done].
  intros i Hi. by apply Hbefore.
Qed.

Lemma gen_frames_stream_witness :
  consume (fun k => if (k <? 2)%nat then Ok [Byte.xff; Byte.xd8]
                    else Raise (Exn RuntimeError (py "camera stopped")))
    5 (Looping 0)
  = ([frame_segment [Byte.xff; Byte.xd8]; frame_segment [Byte.xff; Byte.xd8]],
     Some (Raises (Exn RuntimeError (py "camera stopped"))), Finished)
  /\ length (captured (fun _ => Ok [Byte.xff; Byte.xd8]) 0 3) = 3%nat
  /\ length
       (captured (fun k => if (k <? 2)%nat then Ok [Byte.xff; Byte.xd8]
                           else Raise (Exn RuntimeError (py "camera stopped")))
          0 5) = 2%nat.
Proof.
  split; [|split].
  - apply (proj1 (gen_frames_stream
                    (fun k => if (k <? 2)%nat then Ok [Byte.xff; Byte.xd8]
                              else Raise (Exn RuntimeError
                                            (py "camera stopped")))
                    5)).
  - apply (proj1 (proj2 (gen_frames_stream
                           (fun _ => Ok [Byte.xff; Byte.xd8]) 3)) eq_refl).
  - apply (proj1 (proj2 (proj2 (gen_frames_stream
                    (fun k => if (k <? 2)%nat then Ok [Byte.xff; Byte.xd8]
                              else Raise (Exn RuntimeError
                                            (py "camera stopped")))
                    5)))
             2%nat (Exn RuntimeError (py "camera stopped"))).
    + lia.
    + intros j Hj. exists [Byte.xff; Byte.xd8].
      destruct j as [|[|j]]; [reflexivity|reflexivity|lia].
    + reflexivity.
Defined.

(** ** Numbering and naming together *)

Lemma uint_digits_nonnil u : u <> Decimal.Nil -> uint_digits u <> [].
Proof. by destruct u. Qed.

Lemma str_of_int_isdecimal n :
  (0 <= n)%Z -> isdecimal (str_of_int n) = true.
Proof.
  intros Hn. destruct n as [|p|p]; [done| |lia].
  unfold str_of_int. cbn [Z.to_int].
  pose proof (DecimalPos.Unsigned.to_uint_nonnil p) as Hnil.
  pose proof (uint_digits_decimal (Pos.to_uint p)) as Hd.
  apply uint_digits_nonnil in Hnil. unfold isdecimal.
  by destruct (uint_digits (Pos.to_uint p)).
Qed.

Lemma max_default_unique d l m :
  m ∈ l -> (forall y, y ∈ l -> (y <= m)%Z) -> max_default d l = m.
Proof.
  intros Hm Hub.
  destruct (max_default_elem d l) as [[-> _]|Hin].
  - by apply elem_of_nil in Hm.
  - apply Hub in Hin. apply (max_default_upper d) in Hm. lia.
Qed.

Lemma max_default_ext d l l' :
  (forall y, y ∈ l <-> y ∈ l') -> max_default d l = max_default d l'.
Proof.
  intros Hext. destruct (max_default_elem d l') as [[-> E]|Hin].
  - destruct l as [|x l]; [done|].
    exfalso. eapply not_elem_of_nil, Hext. by apply elem_of_cons; left.
  - apply max_default_unique; [by apply Hext|].
    intros y Hy%Hext. by apply max_default_upper.
Qed.

Lemma decodable_spec listing :
  decodable listing = true <->
  forall f, f ∈ listing -> counted f = true -> isdecimal (component f) = true.
Proof.
  unfold decodable. rewrite forallb_forall. split.
  - intros H f Hin Hc. apply list_elem_of_In, H in Hin.
    by rewrite Hc in Hin.
  - intros H f Hin%list_elem_of_In. specialize (H f Hin).
    destruct (counted f); [by rewrite H|done].
Qed.

Lemma find_undecodable_decodable listing :
  List.find undecodable
    (List.filter (startswith (py "capture_")) listing) = None ->
  decodable listing = true.
Proof.
  unfold decodable, counted, undecodable.
  induction listing as [|f l IH]; [done|].
  cbn [forallb List.filter].
  destruct (startswith (py "capture_") f); cbn [andb negb orb List.find];
    [|exact IH].
  destruct (isdigit (component f)); cbn [andb negb orb]; [|exact IH].
  destruct (isdecimal (component f)); cbn [negb andb]; [exact IH|done].
Qed.

Lemma counted_numbers_mem listing y :
  y ∈ List.map (fun f => decimal_number (component f))
        (List.filter counted listing)
  <-> exists f, f ∈ listing /\ counted f = true
                /\ y = decimal_number (component f).
Proof.
  rewrite list_elem_of_In, in_map_iff. split.
  - intros (f & <- & [Hin Hc]%filter_In). exists f.
    by rewrite list_elem_of_In.
  - intros (f & Hin & Hc & ->). exists f. split; [done|].
    apply filter_In. by rewrite <- list_elem_of_In.
Qed.

(** The generated name under the parsing of lines 79 and 139. *)
Lemma capture_name_parse_facts n :
  (0 <= n)%Z ->
  startswith (py "capture_") (capture_name n) = true
  /\ number_part (capture_name n) = Ok (str_of_int n)
  /\ cond_digit (capture_name n) = Ok true
  /\ elt_int (capture_name n) = Ok n.
Proof.
  intros Hn.
  destruct (str_of_int_roundtrip n Hn) as [Hd Hv].
  destruct (counted_any_suffix (str_of_int n) (py ".jpg") Hd) as [Hc Hcnt];
    [by left|].
  fold (capture_name n) in Hc, Hcnt.
  apply andb_true_iff in Hcnt as [Hp _].
  assert (number_part (capture_name n) = Ok (str_of_int n)) as Hnp.
  { rewrite number_part_component by (by apply prefix_has_underscore).
    by rewrite Hc. }
  split; [done|]. split; [done|].
  unfold cond_digit, elt_int. rewrite Hnp. cbn [rbind].
  rewrite Hd, (py_int_isdigit _ Hd), (str_of_int_isdecimal n Hn), Hv. done.
Qed.

(** X3. The generated name and the parsing of names agree: for every
    number [n] that is not negative, [capture_<n>.jpg] starts with
    [capture_], the expression of lines 79 and 139 selects the digits of
    [n] from it without an [IndexError], the digit test accepts them and
    [int] gives [n] back. *)
Theorem capture_name_parses n :
  (0 <= n)%Z ->
  startswith (py "capture_") (capture_name n) = true
  /\ number_part (capture_name n) = Ok (str_of_int n)
  /\ cond_digit (capture_name n) = Ok true
  /\ elt_int (capture_name n) = Ok n.
Proof. exact (capture_name_parse_facts n). Qed.

Lemma capture_name_parses_witness :
  elt_int (capture_name 120) = Ok 120%Z.
Proof.
  apply (proj2 (proj2 (proj2 (capture_name_parses 120 ltac:(lia))))).
Defined.

(** X4. Numbering advances by one with each capture: when the next number
    of a directory is [n], then with [capture_<n>.jpg] added, anywhere in
    the listing, the next number is [n + 1]. *)
Theorem next_number_advances l1 l2 n :
  get_next_capture_number (l1 ++ l2) = Ok n ->
  get_next_capture_number (l1 ++ capture_name n :: l2) = Ok (n + 1)%Z.
Proof.
  intros Hn. pose proof (next_number_positive _ _ Hn) as Hpos.
  assert (0 <= n)%Z as Hn0 by lia.
  destruct (str_of_int_roundtrip n Hn0) as [Hd Hv].
  destruct (counted_any_suffix (str_of_int n) (py ".jpg") Hd) as [Hc Hcnt];
    [by left|].
  fold (capture_name n) in Hc, Hcnt.
  rewrite get_next_capture_number_spec in Hn |- *.
  destruct (List.find undecodable
              (List.filter (startswith (py "capture_")) (l1 ++ l2)))
    eqn:Hfind; [done|].
  apply find_undecodable_decodable in Hfind.
  assert (decodable (l1 ++ capture_name n :: l2) = true) as Hdec.
  { apply decodable_spec. intros f Hin Hf.
    apply elem_of_app in Hin as [Hin|[->|Hin]%elem_of_cons].
    - apply (proj1 (decodable_spec _) Hfind); [|done].
      apply elem_of_app. by left.
    - rewrite Hc. by apply str_of_int_isdecimal.
    - apply (proj1 (decodable_spec _) Hfind); [|done].
      apply elem_of_app. by right. }
  rewrite (decodable_find _ Hdec). f_equal. f_equal.
  injection Hn as Hn.
  apply max_default_unique.
  - apply counted_numbers_mem. exists (capture_name n).
    split; [|by rewrite Hc, Hv].
    apply elem_of_app. right. by apply elem_of_cons; left.
  - intros y (f & Hin & Hf & ->)%counted_numbers_mem.
    apply elem_of_app in Hin as [Hin|[->|Hin]%elem_of_cons].
    + assert (decimal_number (component f)
              ∈ List.map (fun f => decimal_number (component f))
                  (List.filter counted (l1 ++ l2))) as Hm.
      { apply counted_numbers_mem. exists f. split; [|done].
        apply elem_of_app. by left. }
      apply (max_default_upper 0) in Hm. lia.
    + rewrite Hc, Hv. lia.
    + assert (decimal_number (component f)
              ∈ List.map (fun f => decimal_number (component f))
                  (List.filter counted (l1 ++ l2))) as Hm.
      { apply counted_numbers_mem. exists f. split; [|done].
        apply elem_of_app. by right. }
      apply (max_default_upper 0) in Hm. lia.
Qed.

Lemma next_number_advances_witness :
  get_next_capture_number
    ([py "capture_3.jpg"] ++ capture_name 4 :: [py "notes.txt"]) = Ok 5%Z.
Proof.
  apply (next_number_advances [py "capture_3.jpg"] [py "notes.txt"] 4 eq_refl).
Defined.

(** X5. The next capture number depends on the set of the names in the
    directory only, not on the order in which [os.listdir] gives them: two
    listings with the same names give the same number, when [int] accepts
    the numeric component of each counted name. *)
Theorem next_number_order_independent l l' :
  (forall f, f ∈ l <-> f ∈ l') ->
  decodable l = true ->
  get_next_capture_number l = get_next_capture_number l'.
Proof.
  intros Hext Hdec.
  assert (decodable l' = true) as Hdec'.
  { apply decodable_spec. intros f Hin%Hext.
    by apply (proj1 (decodable_spec l) Hdec). }
  rewrite !get_next_capture_number_spec.
  rewrite (decodable_find _ Hdec), (decodable_find _ Hdec').
  do 2 f_equal. apply max_default_ext. intros y.
  rewrite !counted_numbers_mem. split; intros (f & Hin & Hf & ->);
    exists f; (split; [by apply Hext|done]).
Qed.

Lemma next_number_order_independent_witness :
  get_next_capture_number [py "capture_3.jpg"; py "capture_7.jpg"; py "a"]
  = get_next_capture_number [py "a"; py "capture_7.jpg"; py "capture_3.jpg"].
Proof.
  apply next_number_order_independent; [|reflexivity].
  intros f. rewrite !elem_of_cons. tauto.
Defined.

(** X6. [get_next_capture_number] returns exactly on the listings on which
    [int] accepts the numeric component of each counted name, and what it
    returns is at least 1. When it raises, the exception is the
    [ValueError] of [int] for the numeric component of the first counted
    name, in the order of the listing, that is not decimal; it never is an
    [IndexError] of the two subscripts. *)
Theorem next_number_failure listing :
  (decodable listing = true <->
   exists n, get_next_capture_number listing = Ok n /\ (1 <= n)%Z)
  /\ (forall e,
        get_next_capture_number listing = Raise e ->
        exn_cls e = ValueError
        /\ exists a f c,
             listing = a ++ f :: c /\ decodable a = true
             /\ counted f = true /\ isdecimal (component f) = false
             /\ e = invalid_literal (component f)).
Proof.
  split; [split|].
  - intros Hdec. rewrite get_next_capture_number_spec, (decodable_find _ Hdec).
    eexists. split; [done|].
    destruct (max_default_elem 0
                (List.map (fun f => decimal_number (component f))
                   (List.filter counted listing))) as [[_ ->]|Hin]; [lia|].
    apply counted_numbers_mem in Hin as (f & _ & _ & E). rewrite E.
    pose proof (decimal_number_nonneg (component f)). lia.
  - intros (n & Hn & _). rewrite get_next_capture_number_spec in Hn.
    destruct (List.find _ _) eqn:Hfind; [done|].
    by apply find_undecodable_decodable.
  - intros e. rewrite get_next_capture_number_spec.
    destruct (List.find _ _) as [f|] eqn:Hfind; [|done].
    intros [= <-]. split; [done|].
    induction listing as [|x l IH]; [done|].
    cbn [List.filter] in Hfind.
    destruct (startswith (py "capture_") x) eqn:Hp.
    + cbn [List.find] in Hfind. destruct (undecodable x) eqn:Hu.
      * injection Hfind as <-. exists [], x, l.
        unfold undecodable in Hu. apply andb_true_iff in Hu as [Hd Hnd].
        split; [done|]. split; [done|].
        split; [unfold counted; by rewrite Hp, Hd|].
        split; [by destruct (isdecimal (component x))|done].
      * destruct (IH Hfind) as (a & g & c & -> & Ha & Hg & Hgd & E).
        exists (x :: a), g, c. split; [done|]. split; [|done].
        unfold decodable. cbn [forallb]. fold (decodable a). rewrite Ha.
        unfold undecodable in Hu. unfold counted. rewrite Hp. cbn [andb].
        destruct (isdigit (component x)); cbn [andb negb orb] in *; [|done].
        by destruct (isdecimal (component x)).
    + destruct (IH Hfind) as (a & g & c & -> & Ha & Hg & Hgd & E).
      exists (x :: a), g, c. split; [done|]. split; [|done].
      unfold decodable. cbn [forallb]. fold (decodable a). rewrite Ha.
      unfold counted. by rewrite Hp.
Qed.

Lemma next_number_failure_witness :
  (exists n, get_next_capture_number [py "capture_3.jpg"; py "capture_x"]
             = Ok n /\ (1 <= n)%Z)
  /\ exn_cls (invalid_literal [0xB2]) = ValueError.
Proof.
  split.
  - apply (proj1 (proj1 (next_number_failure
                           [py "capture_3.jpg"; py "capture_x"])) eq_refl).
  - apply (proj2 (next_number_failure [py "capture_1.jpg"; superscript_name])
             (invalid_literal [0xB2]) eq_refl).
Defined.

(** ** The latest capture, further *)

Lemma max_key_from_keeps {A} (key : A -> result Z) best kbest c :
  (forall y, y ∈ c -> exists ky, key y = Ok ky /\ (ky <= kbest)%Z) ->
  max_key_from key best kbest c = Ok best.
Proof.
  induction c as [|y c IH]; intros Hc; cbn [max_key_from]; [done|].
  destruct (Hc y) as (ky & -> & Hle); [by apply elem_of_cons; left|].
  cbn [rbind]. destruct (Z.ltb_spec kbest ky); [lia|].
  apply IH. intros z Hz. apply Hc. by apply elem_of_cons; right.
Qed.

Lemma max_key_from_first {A} (key : A -> result Z) best kbest a x c kx :
  key x = Ok kx ->
  (kbest < kx)%Z ->
  (forall y, y ∈ a -> exists ky, key y = Ok ky /\ (ky < kx)%Z) ->
  (forall y, y ∈ c -> exists ky, key y = Ok ky /\ (ky <= kx)%Z) ->
  max_key_from key best kbest (a ++ x :: c) = Ok x.
Proof.
  intros Hx Hlt Ha Hc. revert best kbest Hlt.
  induction a as [|y a IH]; intros best kbest Hlt; cbn [app max_key_from].
  - rewrite Hx. cbn [rbind]. destruct (Z.ltb_spec kbest kx); [|lia].
    by apply max_key_from_keeps.
  - destruct (Ha y) as (ky & -> & Hky); [by apply elem_of_cons; left|].
    cbn [rbind].
    assert (forall z, z ∈ a -> exists kz, key z = Ok kz /\ (kz < kx)%Z) as Ha'.
    { intros z Hz. apply Ha. by apply elem_of_cons; right. }
    destruct (Z.ltb_spec kbest ky); by apply IH.
Qed.

(** [max(l, key=key)] is the first element whose key no other exceeds. *)
Lemma max_key_first {A} (key : A -> result Z) a x c kx :
  key x = Ok kx ->
  (forall y, y ∈ a -> exists ky, key y = Ok ky /\ (ky < kx)%Z) ->
  (forall y, y ∈ c -> exists ky, key y = Ok ky /\ (ky <= kx)%Z) ->
  max_key key (a ++ x :: c) = Ok x.
Proof.
  intros Hx Ha Hc. destruct a as [|y a]; cbn [app max_key].
  - rewrite Hx. cbn [rbind]. by apply max_key_from_keeps.
  - destruct (Ha y) as (ky & -> & Hky); [by apply elem_of_cons; left|].
    cbn [rbind]. apply (max_key_from_first key y ky a x c kx); try done.
    intros z Hz. apply Ha. by apply elem_of_cons; right.
Qed.

(** [latest_capture] on a listing split at its first greatest name. *)
Lemma latest_capture_picks_first env log a f c n :
  fault env log (Listdir CAPTURE_FOLDER) = None ->
  List.filter (startswith (py "capture_")) (files env) = a ++ f :: c ->
  elt_int f = Ok n ->
  (forall h, h ∈ a -> exists m, elt_int h = Ok m /\ (m < n)%Z) ->
  (forall h, h ∈ c -> exists m, elt_int h = Ok m /\ (m <= n)%Z) ->
  latest_capture env log
  = (Ok (success_response f), log ++ [succeeded (Listdir CAPTURE_FOLDER)]).
Proof.
  intros Hls Hfiles Hf Ha Hc.
  rewrite latest_capture_unfold, Hls, Hfiles. cbv zeta.
  pose proof (max_key_first elt_int a f c n Hf Ha Hc) as Hmax.
  destruct (a ++ f :: c) as [|x l] eqn:E.
  - by destruct a.
  - by rewrite Hmax.
Qed.

(** X7. Among the names with the greatest number, [/latest_capture]
    answers the one that comes first in the listing: when the directory can
    be listed and, of the names that start with [capture_], the name [f]
    has a number that is greater than the numbers of the names before it
    and not less than those of the names after it, the answer is [f]. Two
    names with the same number (as [capture_1.jpg] and [capture_01.jpg])
    are answered according to the order of [os.listdir]. *)
Theorem latest_capture_first_greatest env log a f c n :
  fault env log (Listdir CAPTURE_FOLDER) = None ->
  List.filter (startswith (py "capture_")) (files env) = a ++ f :: c ->
  elt_int f = Ok n ->
  (forall h, h ∈ a -> exists m, elt_int h = Ok m /\ (m < n)%Z) ->
  (forall h, h ∈ c -> exists m, elt_int h = Ok m /\ (m <= n)%Z) ->
  latest_capture env log
  = (Ok (success_response f), log ++ [succeeded (Listdir CAPTURE_FOLDER)]).
Proof. exact (latest_capture_picks_first env log a f c n). Qed.

Lemma latest_capture_first_greatest_witness :
  latest_capture (never_fails [py "capture_1.jpg"; py "capture_01.jpg"]) []
  = (Ok (success_response (py "capture_1.jpg")),
     [succeeded (Listdir CAPTURE_FOLDER)])
  /\ latest_capture (never_fails [py "capture_01.jpg"; py "capture_1.jpg"]) []
     = (Ok (success_response (py "capture_01.jpg")),
        [succeeded (Listdir CAPTURE_FOLDER)]).
Proof.
  split.
  - apply (latest_capture_first_greatest
             (never_fails [py "capture_1.jpg"; py "capture_01.jpg"]) []
             [] (py "capture_1.jpg") [py "capture_01.jpg"] 1
             eq_refl eq_refl eq_refl).
    + intros h Hh. by apply elem_of_nil in Hh.
    + intros h Hh. apply list_elem_of_singleton in Hh as ->.
      exists 1%Z. split; [reflexivity|lia].
  - apply (latest_capture_first_greatest
             (never_fails [py "capture_01.jpg"; py "capture_1.jpg"]) []
             [] (py "capture_01.jpg") [py "capture_1.jpg"] 1
             eq_refl eq_refl eq_refl).
    + intros h Hh. by apply elem_of_nil in Hh.
    + intros h Hh. apply list_elem_of_singleton in Hh as ->.
      exists 1%Z. split; [reflexivity|lia].
Defined.

Lemma elt_int_counted f :
  counted f = true -> isdecimal (component f) = true ->
  elt_int f = Ok (decimal_number (component f)).
Proof.
  unfold counted. intros [Hp Hd]%andb_true_iff Hdec. unfold elt_int.
  rewrite (number_part_component f (prefix_has_underscore f Hp)).
  cbn [rbind]. by rewrite (py_int_isdigit _ Hd), Hdec.
Qed.

(** X8. After a capture, [/latest_capture] reports the file just written:
    when the next number of a directory is [n], every name in it that
    starts with [capture_] has a number, and [capture_<n>.jpg] is added,
    anywhere in the listing, the answer is [success] true with
    [capture_<n>.jpg]. *)
Theorem latest_capture_after_capture env log l1 l2 n :
  fault env log (Listdir CAPTURE_FOLDER) = None ->
  files env = l1 ++ capture_name n :: l2 ->
  get_next_capture_number (l1 ++ l2) = Ok n ->
  (forall f, f ∈ l1 ++ l2 -> startswith (py "capture_") f = true ->
             counted f = true) ->
  latest_capture env log
  = (Ok (success_response (capture_name n)),
     log ++ [succeeded (Listdir CAPTURE_FOLDER)]).
Proof.
  intros Hls Hfiles Hn Hwell.
  pose proof (next_number_positive _ _ Hn) as Hpos.
  destruct (capture_name_parse_facts n) as (Hp & _ & _ & Hint); [lia|].
  assert (forall h, h ∈ l1 ++ l2 -> startswith (py "capture_") h = true ->
            exists m, elt_int h = Ok m /\ (m < n)%Z) as Hless.
  { intros h Hin Hhp. pose proof (Hwell h Hin Hhp) as Hc.
    rewrite get_next_capture_number_spec in Hn.
    destruct (List.find _ _) eqn:Hfind; [done|].
    apply find_undecodable_decodable in Hfind.
    pose proof (proj1 (decodable_spec _) Hfind h Hin Hc) as Hd.
    exists (decimal_number (component h)).
    split; [by apply elt_int_counted|].
    injection Hn as <-.
    assert (decimal_number (component h)
            ∈ List.map (fun f => decimal_number (component f))
                (List.filter counted (l1 ++ l2))) as Hm.
    { apply counted_numbers_mem. by exists h. }
    apply (max_default_upper 0) in Hm. lia. }
  apply (latest_capture_picks_first env log
           (List.filter (startswith (py "capture_")) l1) (capture_name n)
           (List.filter (startswith (py "capture_")) l2) n Hls); [|done|..].
  - rewrite Hfiles, List.filter_app. cbn [List.filter]. by rewrite Hp.
  - intros h [Hin Hhp]%list_elem_of_In%filter_In.
    apply Hless; [|done]. apply elem_of_app. left. by apply list_elem_of_In.
  - intros h [Hin Hhp]%list_elem_of_In%filter_In.
    destruct (Hless h) as (m & Hm & Hlt); [|done|].
    + apply elem_of_app. right. by apply list_elem_of_In.
    + exists m. split; [done|lia].
Qed.

Lemma latest_capture_after_capture_witness :
  latest_capture
    (never_fails [py "capture_3.jpg"; capture_name 4; py "notes.txt"]) []
  = (Ok (success_response (capture_name 4)),
     [succeeded (Listdir CAPTURE_FOLDER)]).
Proof.
  apply (latest_capture_after_capture
           (never_fails [py "capture_3.jpg"; capture_name 4; py "notes.txt"])
           [] [py "capture_3.jpg"] [py "notes.txt"] 4
           eq_refl eq_refl eq_refl).
  intros f Hf. apply elem_of_cons in Hf as [->|Hf]; [reflexivity|].
  apply list_elem_of_singleton in Hf as ->. intros H. discriminate H.
Defined.

Lemma max_key_from_ok best kbest l :
  (exists x, max_key_from elt_int best kbest l = Ok x)
  <-> existsb unparsable l = false.
Proof.
  revert best kbest; induction l as [|y l IH]; intros best kbest;
    cbn [max_key_from existsb].
  - split; [done|]. by eexists.
  - unfold unparsable at 1. destruct (elt_int y) as [ky|e]; cbn [rbind orb].
    + destruct (kbest <? ky)%Z; apply IH.
    + split; [by intros [x ?]|done].
Qed.

(** X9. [/latest_capture] always returns an answer and makes one call, the
    listing of the capture directory; it makes no call on the camera. The
    answer is 404 exactly when the listing succeeds and holds no name that
    starts with [capture_]; it is 500 exactly when the listing raises or
    [int] raises on the number of one of the names that start with
    [capture_], whichever name that is; and it is 200 otherwise. *)
Theorem latest_capture_status env log :
  let ls := Listdir CAPTURE_FOLDER in
  let named := List.filter (startswith (py "capture_")) (files env) in
  exists resp,
    latest_capture env log = (Ok resp, log ++ [Event ls (fault env log ls)])
    /\ (status resp = 200 \/ status resp = 404 \/ status resp = 500)
    /\ (status resp = 404 <-> fault env log ls = None /\ named = [])
    /\ (status resp = 500 <->
        fault env log ls <> None \/ existsb unparsable named = true).
Proof.
  cbv zeta. rewrite latest_capture_unfold.
  destruct (fault env log (Listdir CAPTURE_FOLDER)) as [e|].
  { eexists. split; [done|]. cbn [status error_response].
    split; [auto|]. split; [split; [done|by intros [? _]]|].
    split; [by left|done]. }
  cbv zeta. destruct (List.filter _ (files env)) as [|f fs] eqn:Hnamed.
  { eexists. split; [done|]. cbn [status error_response existsb].
    split; [auto|]. split; [done|]. split; [done|by intros [?|?]]. }
  destruct (max_key elt_int (f :: fs)) as [latest|e] eqn:Hmax.
  - eexists. split; [done|]. cbn [status success_response].
    split; [auto|]. split; [split; [done|by intros [_ ?]]|].
    split; [done|]. intros [?|Hbad]; [done|]. exfalso.
    cbn [max_key] in Hmax. cbn [existsb] in Hbad.
    unfold unparsable at 1 in Hbad.
    destruct (elt_int f) as [k|]; [|done]. cbn [rbind orb] in *.
    assert (existsb unparsable fs = false) as Hno.
    { apply (max_key_from_ok f k). by exists latest. }
    by rewrite Hno in Hbad.
  - eexists. split; [done|]. cbn [status error_response].
    split; [auto|]. split; [split; [done|by intros [_ ?]]|].
    split; [|done]. intros _. right.
    cbn [max_key] in Hmax. cbn [existsb]. unfold unparsable at 1.
    destruct (elt_int f) as [k|]; [|done]. cbn [rbind orb] in *.
    destruct (existsb unparsable fs) eqn:Hno; [done|].
    apply (max_key_from_ok f k) in Hno as [x Hx]. by rewrite Hx in Hmax.
Qed.

(** ** The still capture, further *)

Lemma attempt_length env log cs :
  (length (attempt env log cs) <= length cs)%nat.
Proof.
  revert log; induction cs as [|c cs IH]; intros log; cbn [attempt length];
    [lia|].
  destruct (fault env log c); cbn [length]; [lia|].
  specialize (IH (log ++ [succeeded c])). lia.
Qed.

Lemma still_sequence_length g n :
  (length (still_sequence g n) <= 8)%nat.
Proof.
  unfold still_sequence, restore_calls. rewrite !length_app.
  destruct (is_v3 g); cbn [length]; lia.
Qed.

(** X10. The handler of [/capture] always returns an answer, which is 200
    or 500, after at most twelve calls. The answer is 200 exactly when the
    directory was listed, the next number was computed and none of the
    calls of the capture raised; so a capture whose file was written is
    still answered 500 when one of the three calls that return to
    streaming raises. *)
Theorem capture_status env g log :
  let ls := Listdir CAPTURE_FOLDER in
  exists resp made,
    capture env g log = (Ok resp, log ++ made)
    /\ (length made <= 12)%nat
    /\ (status resp = 200 \/ status resp = 500)
    /\ (status resp = 200 <->
        fault env log ls = None
        /\ exists n,
             get_next_capture_number (files env) = Ok n
             /\ first_raised
                  (attempt env (log ++ [succeeded ls]) (still_sequence g n))
                = None).
Proof.
  cbv zeta. rewrite capture_run, capture_body_run.
  pose proof (attempt_length env) as Hlen.
  destruct (fault env log (Listdir CAPTURE_FOLDER)) as [e|].
  { eexists _, ([_] ++ _). split; [by rewrite app_assoc|].
    split.
    { rewrite length_app. cbn [length].
      specialize (Hlen (log ++ [Event (Listdir CAPTURE_FOLDER) (Some e)])
                       (restore_calls g)).
      cbn [restore_calls length] in Hlen. lia. }
    cbn [status error_response]. split; [auto|].
    split; [done|by intros [? _]]. }
  cbv zeta.
  destruct (get_next_capture_number (files env)) as [n|e].
  2:{ eexists _, ([_] ++ _). split; [by rewrite app_assoc|].
      split.
      { rewrite length_app. cbn [length].
        specialize (Hlen (log ++ [succeeded (Listdir CAPTURE_FOLDER)])
                         (restore_calls g)).
        cbn [restore_calls length] in Hlen. lia. }
      cbn [status error_response]. split; [auto|].
      split; [done|]. by intros [_ (n & ? & _)]. }
  set (log1 := log ++ [succeeded (Listdir CAPTURE_FOLDER)]).
  set (made := attempt env log1 (still_sequence g n)).
  assert (length made <= 8)%nat as Hmade.
  { unfold made. etrans; [apply Hlen|apply still_sequence_length]. }
  destruct (first_raised made) as [e|] eqn:Hr.
  - exists (error_response 500 (exn_str e)),
           (([succeeded (Listdir CAPTURE_FOLDER)] ++ made)
            ++ attempt env (log1 ++ made) (restore_calls g)).
    split; [unfold log1; by rewrite <- !app_assoc|].
    split.
    { rewrite !length_app. cbn [length].
      specialize (Hlen (log1 ++ made) (restore_calls g)).
      cbn [restore_calls length] in Hlen. lia. }
    cbn [status error_response]. split; [auto|].
    split; [done|]. intros [_ (n' & [= <-] & Hnone)].
    fold log1 in Hnone. fold made in Hnone. by rewrite Hr in Hnone.
  - exists (success_response (capture_name n)),
           ([succeeded (Listdir CAPTURE_FOLDER)] ++ made).
    split; [unfold log1; by rewrite <- app_assoc|].
    split; [rewrite length_app; cbn [length]; lia|].
    cbn [status success_response]. split; [auto|].
    split; [|done]. intros _. split; [done|]. by exists n.
Qed.

Lemma capture_status_witness :
  exists resp made,
    capture (Environment
               (fun log c => match c with
                             | Start =>
                                 if (3 <? length log)%nat
                                 then Some (Exn RuntimeError (py "busy"))
                                 else None
                             | _ => None
                             end) [])
      generic_globals []
    = (Ok resp, [] ++ made)
    /\ status resp = 500
    /\ Event (CaptureFile (capture_path 1)) None ∈ made.
Proof.
  destruct (capture_status
              (Environment
                 (fun log c => match c with
                               | Start =>
                                   if (3 <? length log)%nat
                                   then Some (Exn RuntimeError (py "busy"))
                                   else None
                               | _ => None
                               end) [])
              generic_globals [])
    as (resp & made & Hrun & _ & Hstatus & H200).
  exists resp, made. split; [exact Hrun|].
  vm_compute in Hrun. injection Hrun as <- <-.
  split; [reflexivity|].
  do 4 apply list_elem_of_further. apply list_elem_of_here.
Defined.

(** ** The two profiles *)

(** X11. The start-up selects one of two pairs of configurations and no
    other: for a V3 identification, streaming at 1920 by 1080 with
    continuous autofocus in the normal range, metered on the one window
    (864, 486, 192, 108), a tenth of the frame in each direction and centred
    in it, and frames of 100000 microseconds, and stills at 4608 by 2592
    with single autofocus; otherwise streaming at 640 by 480 and stills at
    the default, both without controls. The sizes 1640 by 1232 and 4056 by
    3040 of lines 48 to 56 are selected for no identification. *)
Theorem startup_two_profiles ident addr :
  let g := startup ident addr in
  ((is_v3 g = true /\ video_config g = v3_video_config
    /\ still_config g = v3_still_config)
   \/ (is_v3 g = false /\ video_config g = generic_video_config
       /\ still_config g = generic_still_config))
  /\ size (video_config g) <> Some (1640, 1232)%Z
  /\ size (still_config g) <> Some (4056, 3040)%Z
  /\ (forall x y w h,
        controls (video_config g) !! "AfWindows"
        = Some (Rectangles [(x, y, w, h)]) ->
        (10 * w = 1920 /\ 10 * h = 1080
         /\ 2 * x + w = 1920 /\ 2 * y + h = 1080)%Z).
Proof.
  cbv zeta. unfold startup.
  destruct (py_in (py "imx708") (lower (py_str ident))).
  - split; [left; by repeat split|]. split; [done|]. split; [done|].
    intros x y w h H. vm_compute in H. injection H as <- <- <- <-. lia.
  - split; [right; by repeat split|]. split; [done|]. split; [done|].
    intros x y w h H. vm_compute in H. discriminate H.
Qed.

Lemma startup_two_profiles_witness :
  (10 * 192 = 1920 /\ 10 * 108 = 1080
   /\ 2 * 864 + 192 = 1920 /\ 2 * 486 + 108 = 1080)%Z.
Proof.
  apply (proj2 (proj2 (proj2 (startup_two_profiles v3_identification
                                (py "7f6b2c1d9e50"))))
           864 486 192 108)%Z.
  reflexivity.
Defined.

(** ** Serving what was captured *)








(** ** The two scans of the directory agree *)

Lemma elt_int_counted_inv f m :
  counted f = true -> elt_int f = Ok m ->
  isdecimal (component f) = true /\ m = decimal_number (component f).
Proof.
  unfold counted. intros [Hp Hd]%andb_true_iff. unfold elt_int.
  rewrite (number_part_component f (prefix_has_underscore f Hp)).
  cbn [rbind]. rewrite (py_int_isdigit _ Hd).
  destruct (isdecimal (component f)); [|done].
  by intros <-%Ok_inj.
Qed.

(** X13. The two scans of the directory agree on a directory in which
    every name that starts with [capture_] has a number: when
    [/latest_capture] answers the name [f], the number of [f] is [m] and
    [get_next_capture_number] returns [m + 1]. *)
Theorem latest_and_next_agree env log f :
  fault env log (Listdir CAPTURE_FOLDER) = None ->
  (forall h, h ∈ files env -> startswith (py "capture_") h = true ->
             counted h = true) ->
  (latest_capture env log).1 = Ok (success_response f) ->
  exists m,
    elt_int f = Ok m
    /\ get_next_capture_number (files env) = Ok (m + 1)%Z.
Proof.
  intros Hls Hwell. rewrite latest_capture_unfold, Hls. cbv zeta.
  destruct (List.filter _ (files env)) as [|a l] eqn:Hfl; [done|].
  destruct (max_key elt_int (a :: l)) as [latest|e] eqn:Hmax; [|done].
  cbn [fst]. intros <-%Ok_inj%success_response_inj.
  destruct (max_key_spec _ _ _ Hmax) as (Hin & m & Hm & Hall).
  assert (forall h, h ∈ a :: l <->
            h ∈ files env /\ startswith (py "capture_") h = true) as Hmem.
  { intros h. rewrite <- Hfl, !list_elem_of_In. apply filter_In. }
  exists m. split; [done|].
  assert (forall h, h ∈ files env -> counted h = true ->
            exists k, elt_int h = Ok k /\ (k <= m)%Z) as Hkeys.
  { intros h Hh Hc. apply Hall, Hmem. split; [done|].
    unfold counted in Hc. by apply andb_true_iff in Hc as [? _]. }
  assert (decodable (files env) = true) as Hdec.
  { apply decodable_spec. intros h Hh Hc.
    destruct (Hkeys h Hh Hc) as (k & Hk & _).
    by destruct (elt_int_counted_inv h k Hc Hk). }
  rewrite get_next_capture_number_spec, (decodable_find _ Hdec).
  do 2 f_equal. apply Hmem in Hin as [Hin Hp].
  pose proof (Hwell latest Hin Hp) as Hc.
  destruct (elt_int_counted_inv latest m Hc Hm) as [_ E].
  apply max_default_unique.
  - apply counted_numbers_mem. by exists latest.
  - intros y (h & Hh & Hhc & ->)%counted_numbers_mem.
    destruct (Hkeys h Hh Hhc) as (k & Hk & Hle).
    by destruct (elt_int_counted_inv h k Hhc Hk) as [_ <-].
Qed.

Lemma latest_and_next_agree_witness :
  exists m,
    elt_int (py "capture_7.jpg") = Ok m
    /\ get_next_capture_number
         [py "capture_3.jpg"; py "capture_7.jpg"; py "notes.txt"]
       = Ok (m + 1)%Z.
Proof.
  apply (latest_and_next_agree
           (never_fails
              [py "capture_3.jpg"; py "capture_7.jpg"; py "notes.txt"])
           [] (py "capture_7.jpg") eq_refl).
  - intros h Hh.
    apply elem_of_cons in Hh as [->|Hh]; [reflexivity|].
    apply elem_of_cons in Hh as [->|Hh]; [reflexivity|].
    apply list_elem_of_singleton in Hh as ->. intros H. discriminate H.
  - reflexivity.
Defined.

(** ** The builtins at the edges of their tables *)

(** [int] does not skip the separators U+001C to U+001F, and its message
    shows the literal as [repr] does. *)
Example int_separator :
  py_int [0x1C; 0x35]
  = Raise (Exn ValueError
             (py "invalid literal for int() with base 10: '\x1c5'")).
Proof. reflexivity. Qed.

(** A literal with a single quote is shown between double quotes, and the
    message gives 200 characters of a longer literal. *)
Example int_message :
  py_int (py "a'b")
  = Raise (Exn ValueError
             (py "invalid literal for int() with base 10: "
              ++ [cp_double_quote] ++ py "a'b" ++ [cp_double_quote]))
  /\ length (exn_str (invalid_literal (replicate 199 120))) = 240%nat.
Proof. split; reflexivity. Qed.

(** A Bengali digit is decimal: [capture_<U+09E9>.jpg] is counted with the
    number 3. A circled digit passes [isdigit] and is refused by [int],
    so that the exception depends on the order of the listing. *)
Example next_number_other_scripts :
  let bengali := py "capture_" ++ [0x9E9] ++ py ".jpg" in
  let one := py "capture_" ++ [0x2460] ++ py ".jpg" in
  let two := py "capture_" ++ [0x2461] ++ py ".jpg" in
  get_next_capture_number [bengali] = Ok 4%Z
  /\ get_next_capture_number [one; two] = Raise (invalid_literal [0x2460])
  /\ get_next_capture_number [two; one] = Raise (invalid_literal [0x2461])
  /\ decodable [one; two] = false.
Proof. cbv zeta. repeat split; reflexivity. Qed.

(** [/latest_capture] on the same names: the Bengali digit is a number,
    the separator before a digit is an error. *)
Example latest_capture_other_scripts :
  let bengali := py "capture_" ++ [0x9E9] ++ py ".jpg" in
  let separated := py "capture_" ++ [0x1C; 0x35] ++ py ".jpg" in
  latest_capture (never_fails [bengali]) []
  = (Ok (success_response bengali), [succeeded (Listdir CAPTURE_FOLDER)])
  /\ latest_capture (never_fails [py "capture_3.jpg"; separated]) []
     = (Ok (error_response 500 (exn_str (invalid_literal [0x1C; 0x35]))),
        [succeeded (Listdir CAPTURE_FOLDER)]).
Proof. cbv zeta. split; reflexivity. Qed.
